(** * cobraGEMM: the optimisation workflows of [mmtpy_opt_workflows.py]

    A shallow embedding of [optimize_model] and [optimize_model_mbx] and
    of the parts of the COBRApy model object they read and write, with
    the properties of the workflows proved over it.

    Layout:
    - [PyStr]    : the Python string operations the workflows use
                   ([in], [startswith], [endswith], [replace], [split]);
    - [PyDict]   : insertion-ordered dictionaries;
    - [Cobra]    : reactions, metabolites, the model record;
    - [Run]      : the state a run threads and the exceptions it may
                   raise, as a monad;
    - [Scenario] : a small community model with stand-ins for the
                   collaborators;
    - section [Workflows] : the two workflows over the external
                   collaborators (solver, loader, default-bounds setter,
                   metabolomics helpers), then their properties;
    - section [OnCommunity] : the properties on the community model. *)

From Stdlib Require Import String Ascii List Bool Arith Lia ZArith PArith.
From Stdlib Require Import DecimalString.
From Stdlib Require Import Floats.PrimFloat Floats.SpecFloat Floats.FloatOps
  Floats.FloatAxioms.
Import ListNotations.

Local Open Scope list_scope.
Local Open Scope string_scope.

(* ================================================================== *)
(** ** Python strings *)
(* ================================================================== *)

Module PyStr.

(** The two control characters of the output format. *)
Definition tab : ascii := ascii_of_nat 9.
Definition newline : ascii := ascii_of_nat 10.

Definition TAB : string := String tab EmptyString.
Definition NL : string := String newline EmptyString.

(** [s.startswith(p)] *)
Definition startswith (s p : string) : bool := String.prefix p s.

(** [s.endswith(suf)] *)
Fixpoint endswith (s suf : string) : bool :=
  if String.eqb s suf then true
  else match s with
       | EmptyString => false
       | String _ s' => endswith s' suf
       end.

(** [sub in s] *)
Fixpoint contains (sub s : string) : bool :=
  if String.prefix sub s then true
  else match s with
       | EmptyString => false
       | String _ s' => contains sub s'
       end.

(** [s.replace(old, new)] for a non-empty [old]: the occurrences of
    [old] are found from the left and do not overlap.  [skip] counts
    the characters of a match that are still to be dropped. *)
Fixpoint replace_from (old new : string) (skip : nat) (s : string) : string :=
  match s with
  | EmptyString => EmptyString
  | String c s' =>
      match skip with
      | S k => replace_from old new k s'
      | O =>
          if String.prefix old s
          then new ++ replace_from old new (String.length old - 1) s'
          else String c (replace_from old new 0 s')
      end
  end.

Definition replace (s old new : string) : string := replace_from old new 0 s.

(** [x in s] for a single character. *)
Fixpoint has_char (c : ascii) (s : string) : bool :=
  match s with
  | EmptyString => false
  | String d s' => if Ascii.eqb d c then true else has_char c s'
  end.

(** [s.split(sep)] for a non-empty [sep]: the fields between the
    occurrences of [sep], found from the left.  [field] is the field
    being read and [skip] counts the characters of a separator still to
    be dropped. *)
Fixpoint split_from (sep : string) (skip : nat) (field s : string) : list string :=
  match s with
  | EmptyString => [field]
  | String c s' =>
      match skip with
      | S k => split_from sep k field s'
      | O =>
          if String.prefix sep s
          then field :: split_from sep (String.length sep - 1) EmptyString s'
          else split_from sep 0 (field ++ String c EmptyString) s'
      end
  end.

Definition split (s sep : string) : list string := split_from sep 0 EmptyString s.



End PyStr.

(* ================================================================== *)
(** ** Insertion-ordered dictionaries *)
(* ================================================================== *)

Module PyDict.

Section Dict.
Context {A : Type}.

(** A Python [dict] keyed by strings keeps its keys in the order of
    their first insertion; assigning to a key that is present
    replaces the value where the key stands. *)
Definition dict := list (string * A).

Fixpoint set (d : dict) (k : string) (v : A) : dict :=
  match d with
  | [] => [(k, v)]
  | (k', v') :: d' =>
      if String.eqb k' k then (k', v) :: d'
      else (k', v') :: set d' k v
  end.

Fixpoint get (d : dict) (k : string) : option A :=
  match d with
  | [] => None
  | (k', v') :: d' => if String.eqb k' k then Some v' else get d' k
  end.

Definition keys (d : dict) : list string := map fst d.

(** [dict(zip(ks, vs))] and every other dictionary built by
    assigning the pairs one after the other. *)
Definition of_pairs (kvs : list (string * A)) : dict :=
  fold_left (fun d kv => set d (fst kv) (snd kv)) kvs [].

End Dict.

Arguments dict A : clear implicits.

End PyDict.

(* ================================================================== *)
(** ** Transporter ids and metabolite ids (Part 2, line 162) *)
(* ================================================================== *)

(** [UFEt_rxn_list[i].replace("UFEt_", "") + "[u]"] *)
Definition metabolite_of (rxn_id : string) : string :=
  PyStr.replace rxn_id "UFEt_" "" ++ "[u]".

(* ================================================================== *)
(** ** Reading an output file back *)
(* ================================================================== *)





(** An id or a rendered value that the line format can carry: it holds
    no newline and no [":\t"]. *)
Definition line_safe (s : string) : bool :=
  negb (PyStr.has_char PyStr.newline s)
  && negb (PyStr.contains (":" ++ PyStr.TAB) s).

(* ================================================================== *)
(** ** The COBRApy objects the workflows touch *)
(* ================================================================== *)

Module Cobra.

(** A reaction: its id and its flux bounds.  Bounds are Python floats,
    here binary64 primitive floats. *)
Record Reaction := mkReaction {
  rid : string;
  lower_bound : float;
  upper_bound : float
}.

(** [rxn.bounds] *)
Definition bounds (r : Reaction) : float * float :=
  (lower_bound r, upper_bound r).

(** A metabolite: its id and (the ids of) the reactions it takes part
    in, in the order in which iterating [met.reactions] yields them. *)
Record Metabolite := mkMetabolite {
  mid : string;
  met_reactions : list string
}.

Inductive objective_sense := Minimize | Maximize.

(** The model.  [objective] is [Some r] once a single reaction has
    been made the objective and [None] while the model still has the
    objective it was built with; [direction] is the direction of the
    objective; [constraints] are the constraints added on top of the
    network ([add_cons_vars]).  What is never written by the workflows
    (the stoichiometry) is left out: it is fixed during a run, so the
    solver below may depend on it. *)
Record Model {Constraint : Type} := mkModel {
  name : string;
  reactions : list Reaction;
  metabolites : list Metabolite;
  objective : option string;
  direction : objective_sense;
  constraints : list Constraint;
  solver : string
}.
Arguments Model : clear implicits.
Arguments mkModel {Constraint}.

Section Access.
Context {Constraint : Type}.
Local Abbreviation Model := (Model Constraint).

Definition with_reactions (m : Model) (rs : list Reaction) : Model :=
  mkModel (name m) rs (metabolites m) (objective m) (direction m)
          (constraints m) (solver m).

Definition with_objective (m : Model) (o : option string) : Model :=
  mkModel (name m) (reactions m) (metabolites m) o (direction m)
          (constraints m) (solver m).

Definition with_direction (m : Model) (d : objective_sense) : Model :=
  mkModel (name m) (reactions m) (metabolites m) (objective m) d
          (constraints m) (solver m).

Definition with_constraints (m : Model) (cs : list Constraint) : Model :=
  mkModel (name m) (reactions m) (metabolites m) (objective m)
          (direction m) cs (solver m).

Definition with_solver (m : Model) (s : string) : Model :=
  mkModel (name m) (reactions m) (metabolites m) (objective m)
          (direction m) (constraints m) s.

(** [model.reactions.get_by_id(id)] ([None]: the [KeyError]). *)
Fixpoint get_by_id (rs : list Reaction) (id : string) : option Reaction :=
  match rs with
  | [] => None
  | r :: rs' => if String.eqb (rid r) id then Some r else get_by_id rs' id
  end.

(** [model.metabolites.get_by_id(id)] *)
Fixpoint get_metabolite (ms : list Metabolite) (id : string)
  : option Metabolite :=
  match ms with
  | [] => None
  | m :: ms' => if String.eqb (mid m) id then Some m
                else get_metabolite ms' id
  end.

(** The store behind [model.reactions.get_by_id(id).bounds = (lb, ub)]:
    the reaction found by [get_by_id] is the one written. *)
Fixpoint store_bounds (rs : list Reaction) (id : string) (lb ub : float)
  : list Reaction :=
  match rs with
  | [] => []
  | r :: rs' =>
      if String.eqb (rid r) id then mkReaction (rid r) lb ub :: rs'
      else r :: store_bounds rs' id lb ub
  end.

(** The model's ids are unique (they key a [DictList]). *)
Definition unique_ids (m : Model) : Prop := NoDup (map rid (reactions m)).

End Access.

End Cobra.

Import Cobra.

(** [x != 0.0] on a float: IEEE comparison, so [-0.0] counts as zero and
    a NaN does not. *)
Definition float_ne_zero (x : float) : bool := negb (PrimFloat.eqb x 0%float).

(** [v != 0.0] for an objective value, which is a float or [None]. *)
Definition ne_zero (v : option float) : bool :=
  match v with
  | None => true
  | Some x => float_ne_zero x
  end.

(** [str(n)] for a counter. *)
Definition nat_str (n : nat) : string := NilEmpty.string_of_uint (Nat.to_uint n).

(* ================================================================== *)
(** ** Exceptions and results *)
(* ================================================================== *)

Inductive exn :=
| ValueError (msg : string)
| KeyError (key : string)
| TypeError (msg : string)
| IndexError
| ExternalError (msg : string).

Inductive Res (A : Type) :=
| Ok (a : A)
| Raise (e : exn).
Arguments Ok {A}.
Arguments Raise {A}.

(** The message of the workflows' own input check. *)
Definition invalid_input_msg : string :=
  "The model_input must be a path to a model or a COBRApy model object.".

(* ================================================================== *)
(** ** What a run can see and change *)
(* ================================================================== *)

Module Run.

Section Monad.

(** The type of the constraints the metabolomics helpers build. *)
Variable Constraint : Type.

Local Abbreviation Model := (Cobra.Model Constraint).

(** Everything outside the model: what was printed, the files written
    (path to content), and the model as it stood at each solve. *)
Record World := mkWorld {
  console : list string;
  files : PyDict.dict string;
  solves : list Model
}.

(** The model is one object, written in place. *)
Record State := mkState {
  model : Model;
  world : World
}.

(** A computation may raise; the state reached up to there stays. *)
Definition M (A : Type) : Type := State -> Res A * State.

Definition ret {A} (a : A) : M A := fun st => (Ok a, st).

Definition bind {A B} (c : M A) (k : A -> M B) : M B :=
  fun st =>
    match c st with
    | (Ok a, st') => k a st'
    | (Raise e, st') => (Raise e, st')
    end.

Definition raise {A} (e : exn) : M A := fun st => (Raise e, st).

Local Notation "x <- c1 ;; c2" := (bind c1 (fun x => c2))
  (at level 61, c1 at next level, right associativity).

Definition get_model : M Model := fun st => (Ok (model st), st).

Definition put_model (m : Model) : M unit :=
  fun st => (Ok tt, mkState m (world st)).

Definition world_print (msg : string) (w : World) : World :=
  mkWorld (console w ++ [msg])%list (files w) (solves w).

(** [print(msg)] *)
Definition print (msg : string) : M unit :=
  fun st => (Ok tt, mkState (model st) (world_print msg (world st))).

(** [with open(path, "w") as f: f.write(content)] *)
Definition write_file (path content : string) : M unit :=
  fun st =>
    let w := world st in
    (Ok tt, mkState (model st)
              (mkWorld (console w) (PyDict.set (files w) path content) (solves w))).

(** [if b: c] *)
Definition when (b : bool) (c : M unit) : M unit := if b then c else ret tt.

(** [for x in xs: acc = body(x, acc)] *)
Fixpoint for_each {X A} (xs : list X) (body : X -> A -> M A) (a : A) : M A :=
  match xs with
  | [] => ret a
  | x :: xs' => a' <- body x a ;; for_each xs' body a'
  end.

(** [xs[i]] *)
Definition list_get {A} (xs : list A) (i : nat) : M A :=
  match nth_error xs i with
  | Some x => ret x
  | None => raise IndexError
  end.

End Monad.

Arguments mkWorld {Constraint}.
Arguments console {Constraint}.
Arguments files {Constraint}.
Arguments solves {Constraint}.
Arguments mkState {Constraint}.
Arguments model {Constraint}.
Arguments world {Constraint}.
Arguments ret {Constraint A}.
Arguments bind {Constraint A B}.
Arguments raise {Constraint A}.
Arguments get_model {Constraint}.
Arguments put_model {Constraint}.
Arguments world_print {Constraint}.
Arguments print {Constraint}.
Arguments write_file {Constraint}.
Arguments when {Constraint}.
Arguments for_each {Constraint X A}.
Arguments list_get {Constraint A}.

Notation "x <- c1 ;; c2" := (bind c1 (fun x => c2))
  (at level 61, c1 at next level, right associativity).
Notation "c1 ;; c2" := (bind c1 (fun _ => c2))
  (at level 61, right associativity).

End Run.

Import Run.

(* ================================================================== *)
(** ** A small community model *)
(* ================================================================== *)

(** Two transporters with their metabolites and internal exchanges, two
    fecal exchanges and two diet reactions, with stand-ins for the
    collaborators: constraints are named by strings, the solver returns
    the bound of the objective reaction in the direction of the solve,
    and floats are rendered from a table. *)
Module Scenario.

Definition community : Model string :=
  mkModel "community"
    [ mkReaction "UFEt_acetate" 0 5;
      mkReaction "UFEt_propionate" 0 0;
      mkReaction "sp1_IEX_acetate[u]tr" (-1000) 1000;
      mkReaction "sp1_IEX_propionate[u]tr" (-1000) 1000;
      mkReaction "EX_acetate[fe]" (-1000) 1000;
      mkReaction "EX_propionate[fe]" (-1000) 1000;
      mkReaction "Diet_EX_gchola[d]" (-1000) 1000;
      mkReaction "Diet_EX_glc_D[d]" (-1000) 1000 ]
    [ mkMetabolite "acetate[u]" ["UFEt_acetate"; "sp1_IEX_acetate[u]tr"];
      mkMetabolite "propionate[u]" ["UFEt_propionate"; "sp1_IEX_propionate[u]tr"] ]
    None Maximize [] "glpk".

(** The same reactions with the metabolite catalogue lost. *)
Definition community_without_metabolites : Model string :=
  mkModel "community" (reactions community) [] None Maximize [] "glpk".

Definition empty_world : World string := mkWorld [] [] [].

Definition start : State string := mkState community empty_world.

(** Every reaction on its own: the optimum is the bound on the side of
    the direction. *)
Definition box_solve (m : Model string) : Res (option float) :=
  match objective m with
  | None => Ok None
  | Some id =>
      match get_by_id (reactions m) id with
      | Some r =>
          Ok (Some (match direction m with
                    | Maximize => upper_bound r
                    | Minimize => lower_bound r
                    end))
      | None => Raise (ExternalError "objective not in model")
      end
  end.

Definition table_float_str (x : float) : string :=
  if PrimFloat.eqb x 0 then "0.0"
  else if PrimFloat.eqb x 5 then "5.0"
  else if PrimFloat.eqb x 1000 then "1000.0"
  else if PrimFloat.eqb x (-1000) then "-1000.0"
  else "nan".

Definition banner (tool description version : string) : string :=
  tool ++ " " ++ version ++ ": " ++ description.

Definition load_community (path : string) (simple_model_name : option bool)
  : Res (Model string) :=
  if String.eqb path "community.json" then Ok community
  else Raise (ExternalError "file not found").

(** The fecal exchanges lose their uptake. *)
Definition close_fecal_uptake (rxn_type : string) (silent : bool) : M string unit :=
  m <- get_model ;;
  put_model
    (with_reactions m
       (map (fun r =>
               if PyStr.startswith (rid r) "EX_" && PyStr.endswith (rid r) "[fe]"
               then mkReaction (rid r) 0 (upper_bound r)
               else r)
            (reactions m))) ;;
  when (negb silent) (print ("default bounds set for " ++ rxn_type)).

Definition sample_data (mbx_path out : string) (silent : bool)
  : M string (list (string * float)) :=
  when (negb silent) (print ("matched metabolites of " ++ mbx_path)) ;;
  write_file (out ++ "/match_key.txt") "acetate" ;;
  ret [("EX_acetate[fe]", 5%float)].

Definition candidate_constraints (data : list (string * float))
  : M string (list string) :=
  ret (map fst data).

Definition feasible_constraints (cs : list string) (parallel : bool)
  : M string (list string) :=
  when (negb parallel) (print "constraints are feasible") ;;
  ret cs.









(** A solver that is out of order. *)
Definition failing_solve (m : Model string) : Res (option float) :=
  Raise (ExternalError "solver failed").

(** A model of one species alone: no transporter to the lumen. *)
Definition isolate : Model string :=
  mkModel "isolate"
    [ mkReaction "sp1_IEX_acetate[u]tr" (-1000) 1000;
      mkReaction "EX_acetate[fe]" (-1000) 1000;
      mkReaction "Diet_EX_gchola[d]" (-1000) 1000 ]
    [ mkMetabolite "acetate[u]" ["sp1_IEX_acetate[u]tr"] ]
    None Maximize [] "glpk".

(** The maxima Part 1 finds on [community]. *)
Definition maxima : list (option float) := [Some 5%float; Some 0%float].

Definition transporters : list string := ["UFEt_acetate"; "UFEt_propionate"].



End Scenario.

(* ================================================================== *)
(** ** The workflows *)
(* ================================================================== *)

Section Workflows.

Import PyStr.

Set Default Proof Using "Type".

(** The type of the constraints the metabolomics helpers build. *)
Variable Constraint : Type.

Local Abbreviation Model := (Cobra.Model Constraint).
Local Abbreviation World := (Run.World Constraint).
Local Abbreviation State := (Run.State Constraint).
Local Abbreviation M := (Run.M Constraint).

(** *** The external collaborators *)

(** One LP solve of the model as it stands. *)
Variable lp_solve : Model -> Res (option float).

(** [str(x)] for a float (the shortest decimal that reads back). *)
Variable float_str : float -> string.

(** The other Python values a caller may pass, and [str] on them and on
    a model. *)
Variable PyObject : Type.
Variable object_str : PyObject -> string.
Variable model_str : Model -> string.

(** [mmtpy_utils]: the banner, the loader, the default-bounds setter and
    the metabolomics helpers.  They act on the model of the run and may
    print, write files and solve. *)
Variable print_logo : string -> string -> string -> string.
Variable load_model : string -> option bool -> Res Model.
Variable set_default_bounds : string -> bool -> M unit.
Variable MbxData : Type.
Variable ConstrList : Type.
Variable fetch_norm_sample_mbx_data : string -> string -> bool -> M MbxData.
Variable fetch_mbx_constr_list : MbxData -> M ConstrList.
Variable solve_mbx_constraints : ConstrList -> bool -> M (list Constraint).

(** *** COBRApy operations *)

(** [model.reactions.get_by_id(id)] *)
Definition reaction_by_id (id : string) : M Reaction :=
  m <- get_model ;;
  match get_by_id (reactions m) id with
  | Some r => ret r
  | None => raise (KeyError id)
  end.

(** [model.metabolites.get_by_id(id)] *)
Definition metabolite_by_id (id : string) : M Metabolite :=
  m <- get_model ;;
  match get_metabolite (metabolites m) id with
  | Some mt => ret mt
  | None => raise (KeyError id)
  end.

(** [model.reactions.get_by_id(id).bounds = (lb, ub)].  COBRApy's setter
    compares the two bounds before it stores them: [None] cannot be
    compared, and a lower bound above the upper one is refused. *)
Definition set_bounds (id : string) (lb ub : option float) : M unit :=
  reaction_by_id id ;;
  match lb, ub with
  | Some l, Some u =>
      if PrimFloat.ltb u l
      then raise (ValueError "The lower bound must be less than or equal to the upper bound")
      else m <- get_model ;;
           put_model (with_reactions m (store_bounds (reactions m) id l u))
  | _, _ => raise (TypeError "'>' not supported between instances of 'NoneType' and 'NoneType'")
  end.

(** [model.objective = rxn] for a reaction object. *)
Definition set_objective (rxn : Reaction) : M unit :=
  m <- get_model ;;
  put_model (with_objective m (Some (rid rxn))).

(** [model.objective = rxn_id] for an id. *)
Definition set_objective_by_id (id : string) : M unit :=
  m <- get_model ;;
  match get_by_id (reactions m) id with
  | Some r => set_objective r
  | None => raise (ValueError "invalid objective")
  end.

(** [model.optimize(objective_sense=sense).objective_value]: the solve
    runs in the direction asked for, or in the model's own when none is;
    the model's direction is put back afterwards. *)
Definition optimize (sense : option objective_sense) : M (option float) :=
  fun st =>
    let m := model st in
    let solved :=
      with_direction m (match sense with Some d => d | None => direction m end) in
    let w := world st in
    (lp_solve solved,
     mkState m (mkWorld (console w) (files w) (solves w ++ [solved])%list)).

(** [model.solver = name] *)
Definition set_solver (s : string) : M unit :=
  m <- get_model ;; put_model (with_solver m s).

(** [model.add_cons_vars(cs)]; [model.solver.update()] commits them. *)
Definition add_cons_vars (cs : list Constraint) : M unit :=
  m <- get_model ;;
  put_model (with_constraints m (constraints m ++ cs)%list).

(** *** Formatting *)

(** [str(v)] for an objective value. *)
Definition py_str (v : option float) : string :=
  match v with
  | None => "None"
  | Some x => float_str x
  end.

(** [f"{rxn_id}:\t{value}\n"] *)
Definition flux_line (rxn_id : string) (v : option float) : string :=
  rxn_id ++ ":" ++ TAB ++ py_str v ++ NL.

(** What the loop [for rxn_id in d: f.write(...)] leaves in the file. *)
Definition flux_lines (d : PyDict.dict (option float)) : string :=
  String.concat "" (map (fun kv => flux_line (fst kv) (snd kv)) d).

(** *** [optimize_model] *)

Inductive ModelInput :=
| InModel (m : Model)
| InPath (path : string)
| InOther (o : PyObject).

(** [f"{model_input}"] *)
Definition input_str (model_input : ModelInput) : string :=
  match model_input with
  | InModel m => model_str m
  | InPath p => p
  | InOther o => object_str o
  end.

(** Lines 75-82 and 249-256: the model passed in, the model loaded from
    the path, or the [ValueError]. *)
Definition resolve_input (model_input : ModelInput) (simple_model_name : option bool)
  : Res Model :=
  match model_input with
  | InModel m => Ok m
  | InPath p => load_model p simple_model_name
  | InOther _ => Raise (ValueError invalid_input_msg)
  end.

(** Lines 89-98, one turn of [for rxn in model.reactions]; [rxn] is the
    reaction at position [i] as it stands now. *)
Definition diet_1ba_body (i : nat) (_ : unit) : M unit :=
  m <- get_model ;;
  rxn <- list_get (reactions m) i ;;
  if contains "Diet_" (rid rxn) && float_ne_zero (lower_bound rxn) then
    if contains "dgchol" (rid rxn)
       || contains "gchola" (rid rxn)
       || contains "tchola" (rid rxn)
       || contains "tdchola" (rid rxn)
    then set_bounds (rid rxn) (Some (-1000)%float) (Some 0%float)
    else ret tt
  else ret tt.

Definition add_diet_1ba : M unit :=
  m <- get_model ;;
  for_each (seq 0 (List.length (reactions m))) diet_1ba_body tt.

(** Lines 107-110. *)
Definition UFEt_rxn_list (m : Model) : list string :=
  map rid (filter (fun rxn => contains "UFEt_" (rid rxn)) (reactions m)).

(** Lines 116-126, one turn; the accumulator is [counter] and
    [maximized_UFEt_flux_list]. *)
Definition maximize_body (parallel : bool) (counter_max : nat) (rxn : string)
  (acc : nat * list (option float)) : M (nat * list (option float)) :=
  let counter := fst acc + 1 in
  when (negb parallel)
    (m <- get_model ;;
     print (NL ++ TAB ++ "Maximizing UFEt reaction " ++ nat_str counter ++ " of "
            ++ nat_str counter_max ++ " for " ++ name m)) ;;
  set_objective_by_id rxn ;;
  v <- optimize None ;;
  when (negb parallel) (print (TAB ++ TAB ++ rxn ++ ":" ++ TAB ++ py_str v)) ;;
  ret (counter, (snd acc ++ [v])%list).

(** Lines 165-172, one turn of the loop over the metabolite's
    reactions. *)
Definition minimize_IEX_body (parallel : bool) (rxn_id : string)
  (minimized_IEX_flux_dict : PyDict.dict (option float))
  : M (PyDict.dict (option float)) :=
  if contains "IEX" rxn_id then
    rxn <- reaction_by_id rxn_id ;;
    set_objective rxn ;;
    v <- optimize (Some Minimize) ;;
    when (negb parallel) (print (TAB ++ TAB ++ rxn_id ++ ":" ++ TAB ++ py_str v)) ;;
    ret (PyDict.set minimized_IEX_flux_dict rxn_id v)
  else ret minimized_IEX_flux_dict.

(** Lines 145-178, one turn of [for i in range(len(UFEt_rxn_list))]; the
    accumulator is [counter] and [minimized_IEX_flux_dict]. *)
Definition propagate_body (parallel : bool) (rxn_list : list string)
  (maximized_UFEt_flux_list : list (option float)) (counter_max : nat)
  (i : nat) (acc : nat * PyDict.dict (option float))
  : M (nat * PyDict.dict (option float)) :=
  let counter := fst acc + 1 in
  when (negb parallel)
    (m <- get_model ;;
     print (NL ++ TAB ++ "Minimizing IEX reaction " ++ nat_str counter ++ " of "
            ++ nat_str counter_max ++ " for " ++ name m)) ;;
  flux <- list_get maximized_UFEt_flux_list i ;;
  if ne_zero flux then
    rxn_id <- list_get rxn_list i ;;
    rxn <- reaction_by_id rxn_id ;;
    let saved_bounds := bounds rxn in
    set_bounds rxn_id flux flux ;;
    let metabolite := metabolite_of rxn_id in
    met <- metabolite_by_id metabolite ;;
    d <- for_each (met_reactions met) (minimize_IEX_body parallel) (snd acc) ;;
    set_bounds rxn_id (Some (fst saved_bounds)) (Some (snd saved_bounds)) ;;
    ret (counter, d)
  else
    when (negb parallel)
      (print (TAB ++ TAB ++ "Skipping reaction because the maximized flux is 0.0")) ;;
    ret (counter, snd acc).

(** Part 2 as a whole: the loop of lines 142-178 from an empty
    dictionary. *)
Definition propagate_and_minimize (parallel : bool) (rxn_list : list string)
  (maximized_UFEt_flux_list : list (option float))
  : M (PyDict.dict (option float)) :=
  acc <- for_each (seq 0 (List.length rxn_list))
           (propagate_body parallel rxn_list maximized_UFEt_flux_list
              (List.length rxn_list))
           (0, []) ;;
  ret (snd acc).

(** Lines 181-183. *)
Definition model_rxn_bounds (m : Model) : PyDict.dict (float * float) :=
  PyDict.of_pairs (map (fun rxn => (rid rxn, bounds rxn)) (reactions m)).

Definition Outputs : Type :=
  PyDict.dict (option float) * PyDict.dict (option float)
  * PyDict.dict (float * float).

(** Lines 84-196, once the model is at hand. *)
Definition optimize_model_body (model_input : ModelInput) (output_path : string)
  (add_1ba silent return_outputs parallel : bool) : M (option Outputs) :=
  set_default_bounds "FEX" silent ;;
  when add_1ba add_diet_1ba ;;
  when (negb parallel)
    (m <- get_model ;;
     print (NL ++ "[STARTED] Part 1: maximizing UFEt fluxes for " ++ name m)) ;;
  m <- get_model ;;
  let rxn_list := UFEt_rxn_list m in
  acc <- for_each rxn_list (maximize_body parallel (List.length rxn_list)) (0, []) ;;
  let maximized_UFEt_flux_list := snd acc in
  let maximized_UFEt_flux_dict :=
    PyDict.of_pairs (combine rxn_list maximized_UFEt_flux_list) in
  when (negb parallel)
    (m <- get_model ;;
     print (NL ++ "[DONE] Part 1: maximization complete for " ++ name m) ;;
     print (NL ++ "[STARTED] Part 2: minimizing IEX fluxes for " ++ name m)) ;;
  minimized_IEX_flux_dict <-
    propagate_and_minimize parallel rxn_list maximized_UFEt_flux_list ;;
  m <- get_model ;;
  let model_rxn_bounds_dict := model_rxn_bounds m in
  write_file (output_path ++ "/" ++ name m ++ "_opt_flux.txt")
             (flux_lines minimized_IEX_flux_dict) ;;
  (if negb parallel
   then print (NL ++ "[DONE] Part 2: minimization complete for " ++ name m)
   else print (NL ++ "[DONE] 'optimize_model' workflow for " ++ input_str model_input)) ;;
  ret (if return_outputs
       then Some (maximized_UFEt_flux_dict, minimized_IEX_flux_dict,
                  model_rxn_bounds_dict)
       else None).

(** What a call leaves behind: the value returned or the exception, the
    model object if one was at hand, and the world. *)
Record Outcome (A : Type) := mkOutcome {
  result : Res A;
  final_model : option Model;
  final_world : World
}.
Arguments mkOutcome {A}.
Arguments result {A}.
Arguments final_model {A}.
Arguments final_world {A}.

(** Run a body on the model that input resolution gave. *)
Definition run_on {A} (resolved : Res Model) (body : M A) (w : World) : Outcome A :=
  match resolved with
  | Ok m =>
      let (r, st) := body (mkState m w) in
      mkOutcome r (Some (model st)) (world st)
  | Raise e => mkOutcome (Raise e) None w
  end.

(** [optimize_model(model_input, output_path, add_1ba, silent,
    return_outputs, parallel)]; the value is [None] when the function
    falls off its end. *)
Definition optimize_model (model_input : ModelInput) (output_path : string)
  (add_1ba silent return_outputs parallel : bool) (w : World)
  : Outcome (option Outputs) :=
  let w1 :=
    if negb parallel
    then world_print
           (print_logo "optimize_model"
              ("Optimize a model by minimizing the flux through IEX reactions constrained by"
               ++ NL ++ "maximized UFEt fluxes.")
              "0.1.0-beta") w
    else world_print
           (NL ++ "[STARTED] 'optimize_model' workflow for " ++ input_str model_input) w in
  run_on (resolve_input model_input (Some true))
         (optimize_model_body model_input output_path add_1ba silent
            return_outputs parallel)
         w1.

(** *** [optimize_model_mbx] *)

(** The list comprehension of lines 290-294 and 308-312. *)
Definition fecal_exchange_ids (m : Model) : list string :=
  map rid
    (filter (fun rxn => startswith (rid rxn) "EX_" && endswith (rid rxn) "[fe]")
            (reactions m)).

(** Lines 295-302 and 313-320, one turn; [label] is the word printed. *)
Definition sweep_body (sense : objective_sense) (label : string)
  (verbose parallel : bool) (rxn_id : string)
  (opt_solutions : PyDict.dict (option float))
  : M (PyDict.dict (option float)) :=
  rxn <- reaction_by_id rxn_id ;;
  set_objective rxn ;;
  v <- optimize (Some sense) ;;
  when (ne_zero v || verbose)
    (when (negb parallel)
       (rxn' <- reaction_by_id rxn_id ;;
        print (TAB ++ label ++ ": " ++ rid rxn' ++ ":" ++ TAB ++ py_str v))) ;;
  ret (PyDict.set opt_solutions rxn_id v).

(** Lines 287-302. *)
Definition minimize_sweep (verbose parallel : bool)
  : M (PyDict.dict (option float)) :=
  when (negb parallel)
    (m <- get_model ;;
     print (NL ++ "[Minimizing the model " ++ name m ++ " for each metabolite]")) ;;
  m <- get_model ;;
  for_each (fecal_exchange_ids m) (sweep_body Minimize "Minimized" verbose parallel) [].

(** Lines 305-320. *)
Definition maximize_sweep (verbose parallel : bool)
  : M (PyDict.dict (option float)) :=
  when (negb parallel)
    (m <- get_model ;;
     print (NL ++ "[Maximizing the model " ++ name m ++ " for each metabolite]")) ;;
  m <- get_model ;;
  for_each (fecal_exchange_ids m) (sweep_body Maximize "Maximized" verbose parallel) [].

(** Lines 287-320: both sweeps, from the model with its constraints
    injected. *)
Definition sweeps (verbose parallel : bool)
  : M (PyDict.dict (option float) * PyDict.dict (option float)) :=
  min_opt_solutions <- minimize_sweep verbose parallel ;;
  max_opt_solutions <- maximize_sweep verbose parallel ;;
  ret (min_opt_solutions, max_opt_solutions).

Definition MbxOutputs : Type :=
  PyDict.dict (option float) * PyDict.dict (option float).

(** Lines 258-334, once the model is at hand. *)
Definition optimize_model_mbx_body (model_input : ModelInput)
  (mbx_path output_path : string)
  (silent verbose return_outputs parallel : bool) : M (option MbxOutputs) :=
  set_solver "gurobi" ;;
  mbx_metab_norm_dict <- fetch_norm_sample_mbx_data mbx_path output_path silent ;;
  set_default_bounds "FEX" silent ;;
  mbx_constraints <- fetch_mbx_constr_list mbx_metab_norm_dict ;;
  mbx_constr <- solve_mbx_constraints mbx_constraints parallel ;;
  add_cons_vars mbx_constr ;;
  opt <- sweeps verbose parallel ;;
  m <- get_model ;;
  write_file (output_path ++ "/" ++ name m ++ "_min_mbx_opt_flux.txt")
             (flux_lines (fst opt)) ;;
  write_file (output_path ++ "/" ++ name m ++ "_max_mbx_opt_flux.txt")
             (flux_lines (snd opt)) ;;
  when parallel
    (print (NL ++ "[DONE] 'optimize_model_mbx' workflow for " ++ input_str model_input)) ;;
  ret (if return_outputs then Some opt else None).

(** [optimize_model_mbx(model_input, mbx_path, output_path, silent,
    verbose, return_outputs, parallel)] *)
Definition optimize_model_mbx (model_input : ModelInput)
  (mbx_path output_path : string)
  (silent verbose return_outputs parallel : bool) (w : World)
  : Outcome (option MbxOutputs) :=
  let w1 :=
    if negb parallel
    then world_print
           (print_logo "optimize_model_mbx"
              "Optimize a model for each metabolite given the MBX data."
              "0.1.0-beta") w
    else world_print
           (NL ++ "[STARTED] 'optimize_model_mbx' workflow for "
            ++ input_str model_input) w in
  run_on (resolve_input model_input None)
         (optimize_model_mbx_body model_input mbx_path output_path silent
            verbose return_outputs parallel)
         w1.

(** *** Notions the statements use *)

(** Two states that differ at most in what was printed. *)
Definition same_but_console (st1 st2 : State) : Prop :=
  model st1 = model st2
  /\ files (world st1) = files (world st2)
  /\ solves (world st1) = solves (world st2).

(** A computation that prints and does nothing else. *)
Definition only_prints (c : M unit) : Prop :=
  forall st, fst (c st) = Ok tt /\ same_but_console st (snd (c st)).

(** Two computations that, from states that differ at most in their
    console, end alike (same value or same exception) in states that
    again differ at most in their console. *)
Definition agree {A} (c1 c2 : M A) : Prop :=
  forall st1 st2,
    same_but_console st1 st2 ->
    fst (c1 st1) = fst (c2 st2)
    /\ same_but_console (snd (c1 st1)) (snd (c2 st2)).

(** The reaction as the diet override leaves it (lines 91-98), written
    as one condition on the reaction. *)
Definition diet_1ba_applies (rxn : Reaction) : bool :=
  contains "Diet_" (rid rxn)
  && float_ne_zero (lower_bound rxn)
  && (contains "dgchol" (rid rxn) || contains "gchola" (rid rxn)
      || contains "tchola" (rid rxn) || contains "tdchola" (rid rxn)).

Definition diet_1ba_reaction (rxn : Reaction) : Reaction :=
  if diet_1ba_applies rxn
  then mkReaction (rid rxn) (-1000)%float 0%float
  else rxn.

(** Two models that differ at most in their objective. *)
Definition same_but_objective (m1 m2 : Model) : Prop :=
  with_objective m1 None = with_objective m2 None.

(** The model up to its objective, and the files, are as they were. *)
Definition keeps_network (s1 s2 : State) : Prop :=
  same_but_objective (model s1) (model s2)
  /\ files (world s2) = files (world s1).

(** The state once [(l, u)] is stored as the bounds of [rxn_id]. *)
Definition bounds_stored (st : State) (rxn_id : string) (l u : float) : State :=
  mkState (with_reactions (model st)
             (store_bounds (reactions (model st)) rxn_id l u))
          (world st).

(** The model with the constraints [cs] added to those it has. *)
Definition with_added_constraints (m : Model) (cs : list Constraint) : Model :=
  with_constraints m (constraints m ++ cs)%list.

(** A computation that leaves the files as they are, however it ends. *)
Definition writes_no_file {A} (c : M A) : Prop :=
  forall st, files (world (snd (c st))) = files (world st).

(** The model as a sweep solves it for one reaction. *)
Definition solved_for (m : Model) (sense : objective_sense) (rxn_id : string)
  : Model :=
  with_direction (with_objective m (Some rxn_id)) sense.

(** The model as Part 2 solves it for the IEX reaction [k] while the
    transporter [rxn_id] is pinned to [x]. *)
Definition pinned_for (m : Model) (rxn_id : string) (x : float) (k : string)
  : Model :=
  solved_for (with_reactions m (store_bounds (reactions m) rxn_id x x)) Minimize k.

(* ------------------------------------------------------------------ *)
(** *** Lemmas: strings *)
(* ------------------------------------------------------------------ *)



Lemma prefix_app (m s : string) : String.prefix m (m ++ s) = true.
Proof.
  induction m as [|c m IH]; cbn.
  - now destruct s.
  - destruct (ascii_dec c c) as [_|n]; [exact IH | now elim n].
Qed.


Lemma replace_from_no_occurrence old new s :
  contains old s = false -> replace_from old new 0 s = s.
Proof.
  induction s as [|c s IH]; intros H; [reflexivity|].
  cbn [replace_from]. cbn [contains] in H.
  destruct (String.prefix old (String c s)); [discriminate|].
  now rewrite IH.
Qed.

(** Dropping what is left of a match. *)
Lemma replace_from_skip old new (m s : string) :
  replace_from old new (String.length m) (m ++ s) = replace_from old new 0 s.
Proof.
  induction m as [|c m IH]; cbn.
  - now destruct s.
  - exact IH.
Qed.

(** A match at the head is replaced and the scan resumes behind it. *)
Lemma replace_from_head c m new s :
  replace_from (String c m) new 0 (String c m ++ s)
  = new ++ replace_from (String c m) new 0 s.
Proof.
  change (String c m ++ s) with (String c (m ++ s)).
  cbn [replace_from].
  change (String c (m ++ s)) with (String c m ++ s).
  rewrite prefix_app.
  replace (String.length (String c m) - 1) with (String.length m)
    by (cbn [String.length]; lia).
  now rewrite replace_from_skip.
Qed.



Example metabolite_of_acetate : metabolite_of "UFEt_acetate" = "acetate[u]".
Proof. reflexivity. Qed.

Example metabolite_of_inner_prefix : metabolite_of "pan_UFEt_ac" = "pan_ac[u]".
Proof. reflexivity. Qed.

(** C3 (as stated, refuted): for the transporter id ["UFEt_" ++ s] with
    [s = "UFEt_ac"], the metabolite looked up is ["ac[u]"], not
    [s ++ "[u]"]: [replace] removes every occurrence of the prefix, not
    only the leading one. *)
Lemma metabolite_of_not_prefix_strip :
  contains "UFEt_" ("UFEt_" ++ "UFEt_ac") = true
  /\ metabolite_of ("UFEt_" ++ "UFEt_ac") = "ac[u]"
  /\ metabolite_of ("UFEt_" ++ "UFEt_ac") <> "UFEt_ac" ++ "[u]".
Proof. repeat split; try reflexivity. discriminate. Qed.

(** C3 (amended): the metabolite id is the transporter id with every
    occurrence of ["UFEt_"] removed, followed by ["[u]"]; for an id
    ["UFEt_" ++ s] whose remainder [s] holds no further ["UFEt_"], it is
    [s ++ "[u]"]. *)
Theorem metabolite_of_prefixed (s : string) :
  contains "UFEt_" s = false ->
  metabolite_of ("UFEt_" ++ s) = s ++ "[u]".
Proof.
  intros H. unfold metabolite_of, PyStr.replace.
  rewrite replace_from_head, replace_from_no_occurrence by exact H.
  reflexivity.
Qed.

(* ------------------------------------------------------------------ *)
(** *** Lemmas: the monad *)
(* ------------------------------------------------------------------ *)

Lemma same_but_console_refl st : same_but_console st st.
Proof. now repeat split. Qed.

Lemma same_but_console_trans st1 st2 st3 :
  same_but_console st1 st2 -> same_but_console st2 st3 ->
  same_but_console st1 st3.
Proof.
  intros (A1 & A2 & A3) (B1 & B2 & B3).
  repeat split; congruence.
Qed.

Lemma same_but_console_sym st1 st2 :
  same_but_console st1 st2 -> same_but_console st2 st1.
Proof. intros (A1 & A2 & A3). repeat split; congruence. Qed.

Lemma bind_Ok {A B} (c : M A) (k : A -> M B) st b st' :
  (x <- c ;; k x) st = (Ok b, st') ->
  exists a st1, c st = (Ok a, st1) /\ k a st1 = (Ok b, st').
Proof.
  unfold bind. destruct (c st) as [[a|e] st1]; intros H.
  - now exists a, st1.
  - discriminate.
Qed.

Lemma bind_step {A B} (c : M A) (k : A -> M B) st a st1 :
  c st = (Ok a, st1) -> (x <- c ;; k x) st = k a st1.
Proof. unfold bind. now intros ->. Qed.

Lemma bind_raise {A B} (c : M A) (k : A -> M B) st e st1 :
  c st = (Raise e, st1) -> (x <- c ;; k x) st = (Raise e, st1).
Proof. unfold bind. now intros ->. Qed.

Lemma only_prints_print msg : only_prints (print msg).
Proof. intros st. split; [reflexivity|]. now repeat split. Qed.

Lemma only_prints_ret : only_prints (ret tt).
Proof. intros st. split; [reflexivity|]. apply same_but_console_refl. Qed.

Lemma only_prints_when b c : only_prints c -> only_prints (when b c).
Proof. destruct b; [trivial|]. intros _. apply only_prints_ret. Qed.

Lemma only_prints_seq c1 c2 :
  only_prints c1 -> only_prints c2 -> only_prints (c1 ;; c2).
Proof.
  intros H1 H2 st. unfold bind.
  destruct (H1 st) as [R1 S1]. destruct (c1 st) as [r1 st1]. cbn in R1, S1.
  subst r1. destruct (H2 st1) as [R2 S2]. split; [exact R2|].
  eapply same_but_console_trans; eassumption.
Qed.

Lemma only_prints_with_model (f : Model -> M unit) :
  (forall m, only_prints (f m)) -> only_prints (m <- get_model ;; f m).
Proof. intros H st. unfold bind, get_model. apply H. Qed.

Lemma only_prints_if (b : bool) c1 c2 :
  only_prints c1 -> only_prints c2 -> only_prints (if b then c1 else c2).
Proof. now destruct b. Qed.

(** A printing step in front of a computation. *)
Lemma only_prints_then {A} (c : M unit) (k : M A) st :
  only_prints c ->
  exists st1, same_but_console st st1 /\ (c ;; k) st = k st1.
Proof.
  intros H. destruct (H st) as [R S]. unfold bind.
  destruct (c st) as [r st1]. cbn in R, S. subst r.
  now exists st1.
Qed.

(** Splitting a loop. *)
Lemma for_each_app {X A} (xs ys : list X) (body : X -> A -> M A) a st :
  for_each (xs ++ ys)%list body a st
  = (a' <- for_each xs body a ;; for_each ys body a') st.
Proof.
  revert a st. induction xs as [|x xs IH]; intros a st; cbn [for_each app].
  - reflexivity.
  - unfold bind. destruct (body x a st) as [[a1|e] st1].
    + rewrite IH. reflexivity.
    + reflexivity.
Qed.

(** A property of accumulator and state that every turn keeps holds
    when the loop is through. *)
Lemma for_each_invariant {X A} (P : A -> State -> Prop)
  (xs : list X) (body : X -> A -> M A) :
  (forall x a st a' st', In x xs -> P a st -> body x a st = (Ok a', st') -> P a' st') ->
  forall a st a' st',
    P a st -> for_each xs body a st = (Ok a', st') -> P a' st'.
Proof.
  induction xs as [|x xs IH]; intros Hb a st a' st' HP H; cbn [for_each] in H.
  - injection H as <- <-. exact HP.
  - apply bind_Ok in H. destruct H as (a1 & st1 & H1 & H2).
    eapply IH; [|eapply Hb; [now left|eassumption|eassumption]|eassumption].
    intros. eapply Hb; eauto. now right.
Qed.

(** A property of the state that every turn keeps, raise or not, holds
    however the loop ends. *)
Lemma for_each_frame {X A} (Q : State -> State -> Prop)
  (xs : list X) (body : X -> A -> M A) :
  (forall st, Q st st) ->
  (forall st1 st2 st3, Q st1 st2 -> Q st2 st3 -> Q st1 st3) ->
  (forall x a st, In x xs -> Q st (snd (body x a st))) ->
  forall a st, Q st (snd (for_each xs body a st)).
Proof.
  intros Hrefl Htrans.
  induction xs as [|x xs IH]; intros Hb a st; cbn [for_each].
  - apply Hrefl.
  - unfold bind. specialize (Hb x a st (or_introl eq_refl)) as Hx.
    destruct (body x a st) as [[a1|e] st1]; cbn in Hx.
    + eapply Htrans; [exact Hx|]. apply IH. intros. apply Hb. now right.
    + exact Hx.
Qed.

(* ------------------------------------------------------------------ *)
(** *** Lemmas: the model operations *)
(* ------------------------------------------------------------------ *)

Lemma same_but_objective_fields m1 m2 :
  same_but_objective m1 m2 ->
  name m1 = name m2 /\ reactions m1 = reactions m2
  /\ metabolites m1 = metabolites m2 /\ direction m1 = direction m2
  /\ constraints m1 = constraints m2 /\ solver m1 = solver m2.
Proof.
  unfold same_but_objective, with_objective. intros H.
  injection H as -> -> -> -> -> ->. repeat split.
Qed.

Lemma store_bounds_restore rs id r l u :
  get_by_id rs id = Some r ->
  store_bounds (store_bounds rs id l u) id (lower_bound r) (upper_bound r) = rs.
Proof.
  induction rs as [|r0 rs IH]; cbn [get_by_id store_bounds]; [discriminate|].
  destruct (String.eqb (rid r0) id) eqn:E; intros H.
  - injection H as ->. cbn [store_bounds rid]. rewrite E.
    now destruct r.
  - cbn [store_bounds]. rewrite E. now rewrite IH.
Qed.

Lemma store_bounds_ids rs id l u :
  map rid (store_bounds rs id l u) = map rid rs.
Proof.
  induction rs as [|r0 rs IH]; cbn [store_bounds map]; [reflexivity|].
  destruct (String.eqb (rid r0) id); cbn [map rid]; [reflexivity|].
  now rewrite IH.
Qed.

Lemma list_get_Ok {A} (xs : list A) i (st : State) x st' :
  list_get xs i st = (Ok x, st') -> st' = st /\ nth_error xs i = Some x.
Proof.
  unfold list_get. destruct (nth_error xs i); cbn; intros H.
  - now injection H as <- <-.
  - discriminate.
Qed.

Lemma reaction_by_id_Ok id (st : State) r st' :
  reaction_by_id id st = (Ok r, st') ->
  st' = st /\ get_by_id (reactions (model st)) id = Some r.
Proof.
  unfold reaction_by_id, bind, get_model.
  destruct (get_by_id (reactions (model st)) id); cbn; intros H.
  - now injection H as <- <-.
  - discriminate.
Qed.

Lemma reaction_by_id_state {id} (st : State) :
  snd (reaction_by_id id st) = st.
Proof.
  unfold reaction_by_id, bind, get_model.
  now destruct (get_by_id (reactions (model st)) id).
Qed.

Lemma metabolite_by_id_Ok id (st : State) mt st' :
  metabolite_by_id id st = (Ok mt, st') ->
  st' = st /\ get_metabolite (metabolites (model st)) id = Some mt.
Proof.
  unfold metabolite_by_id, bind, get_model.
  destruct (get_metabolite (metabolites (model st)) id); cbn; intros H.
  - now injection H as <- <-.
  - discriminate.
Qed.

Lemma set_bounds_Ok id lb ub (st st' : State) :
  set_bounds id lb ub st = (Ok tt, st') ->
  exists l u,
    lb = Some l /\ ub = Some u
    /\ st' = bounds_stored st id l u.
Proof.
  unfold set_bounds. intros H.
  apply bind_Ok in H. destruct H as (r & st1 & H1 & H).
  apply reaction_by_id_Ok in H1. destruct H1 as [-> _].
  destruct lb as [l|], ub as [u|]; try discriminate.
  destruct (PrimFloat.ltb u l); [discriminate|].
  unfold bind, get_model, put_model in H. injection H as <-.
  now exists l, u.
Qed.

(** A minimize turn of Part 2 writes the objective and the solve log,
    nothing else, however it ends. *)
Lemma minimize_IEX_body_frame parallel rxn_id d (st : State) :
  same_but_objective (model st) (model (snd (minimize_IEX_body parallel rxn_id d st)))
  /\ files (world (snd (minimize_IEX_body parallel rxn_id d st))) = files (world st).
Proof.
  unfold minimize_IEX_body.
  destruct (contains "IEX" rxn_id); [|split; reflexivity].
  pose proof (reaction_by_id_state (id := rxn_id) st) as Hs.
  destruct (reaction_by_id rxn_id st) as [[r|e] st1] eqn:E; cbn in Hs; subst st1.
  - rewrite (bind_step _ _ _ _ _ E).
    cbv [bind set_objective get_model put_model optimize].
    cbn [model world fst snd files].
    match goal with |- context [lp_solve ?m] => destruct (lp_solve m) as [v|e] end;
      [|split; reflexivity].
    destruct parallel; split; reflexivity.
  - rewrite (bind_raise _ _ _ _ _ E). split; reflexivity.
Qed.

Lemma minimize_IEX_loop_frame parallel rxns d (st : State) :
  same_but_objective (model st)
    (model (snd (for_each rxns (minimize_IEX_body parallel) d st)))
  /\ files (world (snd (for_each rxns (minimize_IEX_body parallel) d st)))
     = files (world st).
Proof.
  apply (for_each_frame
           (fun s1 s2 => same_but_objective (model s1) (model s2)
                         /\ files (world s2) = files (world s1))).
  - intros s; split; reflexivity.
  - unfold same_but_objective. intros s1 s2 s3 [A1 A2] [B1 B2]. split; congruence.
  - intros x a s _. apply minimize_IEX_body_frame.
Qed.

Lemma same_but_objective_intro (m1 m2 : Model) :
  name m1 = name m2 -> reactions m1 = reactions m2 ->
  metabolites m1 = metabolites m2 -> direction m1 = direction m2 ->
  constraints m1 = constraints m2 -> solver m1 = solver m2 ->
  same_but_objective m1 m2.
Proof.
  unfold same_but_objective, with_objective. now intros -> -> -> -> -> ->.
Qed.

(* ------------------------------------------------------------------ *)
(** *** Part 2 of [optimize_model]: pin, minimize, restore *)
(* ------------------------------------------------------------------ *)

(** The printing steps of the two workflows. *)
Lemma only_prints_progress (b : bool) (f : Model -> string) :
  only_prints (when b (m <- get_model ;; print (f m))).
Proof.
  apply only_prints_when, only_prints_with_model.
  intros m. apply only_prints_print.
Qed.

Create HintDb prints discriminated.
#[local] Hint Resolve only_prints_print only_prints_ret only_prints_when
  only_prints_seq only_prints_with_model only_prints_if only_prints_progress
  : prints.

(** Step over a printing prefix of the computation in [H]; the state
    behind it is the same but for the console. *)
Ltac past_printing H st1 Same :=
  match type of H with
  | bind ?c (fun _ => ?k) ?st = _ =>
      let E := fresh "E" in
      destruct (only_prints_then c k st ltac:(auto with prints))
        as (st1 & Same & E);
      rewrite E in H; clear E
  end.

(** Step over a binding in [H] that is known to have returned. *)
Ltac bound H a st1 Ha :=
  apply bind_Ok in H; destruct H as (a & st1 & Ha & H).

(** What a turn of Part 2 that completes has done: either it skipped a
    zero flux, or it pinned the transporter to its maximum, ran the
    minimize loop over the reactions of the metabolite, and stored the
    saved bounds again. *)
Lemma propagate_body_Ok parallel rxn_list fluxes counter_max i acc st acc' st' :
  propagate_body parallel rxn_list fluxes counter_max i acc st = (Ok acc', st') ->
  exists st1 flux,
    same_but_console st st1
    /\ nth_error fluxes i = Some flux
    /\ ((ne_zero flux = false /\ snd acc' = snd acc /\ same_but_console st1 st')
        \/ (ne_zero flux = true
            /\ exists rxn_id rxn x met st3,
                nth_error rxn_list i = Some rxn_id
                /\ get_by_id (reactions (model st1)) rxn_id = Some rxn
                /\ flux = Some x
                /\ get_metabolite (metabolites (model st1)) (metabolite_of rxn_id)
                   = Some met
                /\ for_each (met_reactions met) (minimize_IEX_body parallel)
                     (snd acc) (bounds_stored st1 rxn_id x x)
                   = (Ok (snd acc'), st3)
                /\ st' = bounds_stored st3 rxn_id (lower_bound rxn) (upper_bound rxn))).
Proof.
  unfold propagate_body. intros H.
  past_printing H st1 Same.
  bound H flux s Hf. apply list_get_Ok in Hf. destruct Hf as [-> Hf].
  exists st1, flux. split; [exact Same|]. split; [exact Hf|].
  destruct (ne_zero flux); [right|left].
  - split; [reflexivity|].
    bound H rxn_id s Hi. apply list_get_Ok in Hi. destruct Hi as [-> Hi].
    bound H rxn s Hr. apply reaction_by_id_Ok in Hr. destruct Hr as [-> Hr].
    bound H u st2 Hpin. destruct u.
    apply set_bounds_Ok in Hpin. destruct Hpin as (l & u & Hl & Hu & ->).
    bound H met s Hm. apply metabolite_by_id_Ok in Hm. destruct Hm as [-> Hm].
    bound H d st3 Hloop.
    bound H u' st4 Hrestore. destruct u'.
    injection H as <- <-.
    apply set_bounds_Ok in Hrestore.
    destruct Hrestore as (l' & u' & Hl' & Hu' & ->).
    cbn [bounds fst snd] in Hl', Hu'. injection Hl' as <-. injection Hu' as <-.
    subst flux. injection Hu as <-.
    exists rxn_id, rxn, l, met, st3. cbn [snd]. repeat split; assumption.
  - past_printing H st2 Same2.
    injection H as <- <-.
    split; [reflexivity|]. split; [reflexivity|exact Same2].
Qed.

Lemma propagate_body_restores parallel rxn_list fluxes counter_max i acc st acc' st' :
  propagate_body parallel rxn_list fluxes counter_max i acc st = (Ok acc', st') ->
  same_but_objective (model st) (model st')
  /\ files (world st') = files (world st).
Proof.
  intros H. apply propagate_body_Ok in H.
  destruct H as (st1 & flux & (M1 & F1 & _) & _ & [(_ & _ & M2 & F2 & _)|(_ & H)]).
  - split; [unfold same_but_objective|]; congruence.
  - destruct H as (rxn_id & rxn & x & met & st3 & _ & Hr & _ & _ & Hloop & ->).
    pose proof (minimize_IEX_loop_frame parallel (met_reactions met) (snd acc)
                  (bounds_stored st1 rxn_id x x)) as [Hobj Hfiles].
    rewrite Hloop in Hobj, Hfiles. cbn [snd bounds_stored model world] in Hobj, Hfiles.
    apply same_but_objective_fields in Hobj.
    cbn [with_reactions name reactions metabolites direction constraints solver] in Hobj.
    destruct Hobj as (N & R & Mt & D & C & S).
    split.
    + apply same_but_objective_intro;
        cbn [bounds_stored model with_reactions name reactions metabolites
               direction constraints solver]; try congruence.
      rewrite <- R, (store_bounds_restore _ _ _ _ _ Hr). congruence.
    + cbn [bounds_stored world]. congruence.
Qed.

(** C1: when the propagate-and-minimize loop of Part 2 completes, every
    reaction of the model, and so every transporter, has the bounds it
    had when the loop began; and wherever the loop is cut, the turns
    before the cut have completed and left those same bounds, so a
    transporter processed later starts from the bounds the loop began
    with and sees no change made for an earlier one. *)
Theorem propagate_restores_bounds parallel rxn_list fluxes st d st' :
  propagate_and_minimize parallel rxn_list fluxes st = (Ok d, st') ->
  reactions (model st') = reactions (model st)
  /\ forall pre post,
       seq 0 (List.length rxn_list) = (pre ++ post)%list ->
       exists acc1 st1 acc',
         for_each pre
           (propagate_body parallel rxn_list fluxes (List.length rxn_list))
           (0, []) st = (Ok acc1, st1)
         /\ reactions (model st1) = reactions (model st)
         /\ for_each post
              (propagate_body parallel rxn_list fluxes (List.length rxn_list))
              acc1 st1 = (Ok acc', st')
         /\ snd acc' = d.
Proof.
  unfold propagate_and_minimize. intros H.
  bound H acc' s Hloop. injection H as <- <-.
  assert (Inv : forall xs a s1 a' s2,
             for_each xs
               (propagate_body parallel rxn_list fluxes (List.length rxn_list))
               a s1 = (Ok a', s2) ->
             reactions (model s2) = reactions (model s1)).
  { intros xs a s1 a' s2 Hx.
    apply (for_each_invariant
             (fun _ s0 => reactions (model s0) = reactions (model s1))
             xs _) with (a := a) (st := s1) (a' := a') in Hx; trivial.
    intros x b t b' t' _ Ht Hb.
    apply propagate_body_restores in Hb. destruct Hb as [Hb _].
    apply same_but_objective_fields in Hb. destruct Hb as (_ & R & _).
    congruence. }
  split; [eapply Inv; eassumption|].
  intros pre post Hsplit. rewrite Hsplit, for_each_app in Hloop.
  bound Hloop acc1 st1 Hpre.
  exists acc1, st1, acc'. repeat split; trivial.
  eapply Inv; eassumption.
Qed.

(** The keys of a dictionary after an assignment. *)
Lemma keys_set {A} (d : PyDict.dict A) k v k' :
  In k' (PyDict.keys (PyDict.set d k v)) -> In k' (PyDict.keys d) \/ k' = k.
Proof.
  unfold PyDict.keys.
  induction d as [|[k0 v0] d IH]; cbn [PyDict.set map fst In].
  - intros [<-|[]]. now right.
  - destruct (String.eqb k0 k); cbn [map fst In].
    + intros [H|H]; [left; now left|left; now right].
    + intros [H|H]; [left; now left|].
      destruct (IH H) as [H'|H']; [left; now right|now right].
Qed.

(** The minimize loop adds keys only for the IEX reactions it walks. *)
Lemma minimize_IEX_loop_keys parallel rxns :
  forall d st d' st',
    for_each rxns (minimize_IEX_body parallel) d st = (Ok d', st') ->
    forall k, In k (PyDict.keys d') ->
      In k (PyDict.keys d) \/ (In k rxns /\ contains "IEX" k = true).
Proof.
  induction rxns as [|r rxns IH]; intros d st d' st' H k Hk; cbn [for_each] in H.
  - injection H as <- <-. now left.
  - bound H d1 st1 Hbody.
    destruct (IH _ _ _ _ H k Hk) as [Hin|[Hin HI]]; [|right; split; [now right|exact HI]].
    unfold minimize_IEX_body in Hbody.
    destruct (contains "IEX" r) eqn:EI.
    + bound Hbody rxn s Hr. bound Hbody u s1 Ho. bound Hbody v s2 Hv.
      bound Hbody u' s3 Hp. injection Hbody as <- <-.
      apply keys_set in Hin. destruct Hin as [Hin| ->]; [now left|].
      right. split; [now left|exact EI].
    + injection Hbody as <- <-. now left.
Qed.

(** C2: a transporter whose maximized flux is zero is skipped: its turn
    returns the dictionary it was given and leaves the state as it was
    but for the console (no solve is logged, no bound is read into a
    saved copy, pinned or written); and every key of the minimized-flux
    dictionary is an IEX reaction of the metabolite of some other
    transporter, one whose maximized flux is not zero. *)
Theorem zero_flux_transporter_skipped parallel rxn_list fluxes i flux :
  nth_error fluxes i = Some flux ->
  ne_zero flux = false ->
  (forall counter_max acc st,
      exists st',
        propagate_body parallel rxn_list fluxes counter_max i acc st
        = (Ok (fst acc + 1, snd acc), st')
        /\ same_but_console st st')
  /\ (forall st d st' k,
         propagate_and_minimize parallel rxn_list fluxes st = (Ok d, st') ->
         In k (PyDict.keys d) ->
         exists j rxn_id x met,
           j <> i
           /\ nth_error rxn_list j = Some rxn_id
           /\ nth_error fluxes j = Some (Some x)
           /\ ne_zero (Some x) = true
           /\ get_metabolite (metabolites (model st)) (metabolite_of rxn_id)
              = Some met
           /\ In k (met_reactions met)
           /\ contains "IEX" k = true).
Proof.
  intros Hflux Hzero. split.
  - intros counter_max acc st. unfold propagate_body.
    match goal with
    | |- exists _, bind ?c (fun _ => ?k) st = _ /\ _ =>
        destruct (only_prints_then c k st ltac:(auto with prints))
          as (st1 & Same1 & ->)
    end.
    unfold list_get at 1. rewrite Hflux.
    rewrite (bind_step _ _ _ flux st1 eq_refl), Hzero.
    match goal with
    | |- exists _, bind ?c (fun _ => ?k) st1 = _ /\ _ =>
        destruct (only_prints_then c k st1 ltac:(auto with prints))
          as (st2 & Same2 & ->)
    end.
    exists st2. split; [reflexivity|].
    eapply same_but_console_trans; eassumption.
  - intros st d st' k H Hk. unfold propagate_and_minimize in H.
    bound H acc' s Hloop. injection H as <- <-.
    pose (P := fun (acc : nat * PyDict.dict (option float)) (s0 : State) =>
                 same_but_objective (model st) (model s0)
                 /\ forall k, In k (PyDict.keys (snd acc)) ->
                      exists j rxn_id x met,
                        j <> i
                        /\ nth_error rxn_list j = Some rxn_id
                        /\ nth_error fluxes j = Some (Some x)
                        /\ ne_zero (Some x) = true
                        /\ get_metabolite (metabolites (model st))
                             (metabolite_of rxn_id) = Some met
                        /\ In k (met_reactions met)
                        /\ contains "IEX" k = true).
    assert (HP : P acc' s).
    { apply (for_each_invariant P _ _) with (a := (0, [])) (st := st)
        (a' := acc') (st' := s) in Hloop; trivial.
      - intros j a t a' t' _ [Hobj Hkeys] Hbody. split.
        + apply propagate_body_restores in Hbody. destruct Hbody as [Hb _].
          unfold same_but_objective in *. congruence.
        + apply propagate_body_Ok in Hbody.
          destruct Hbody as (t1 & f & (M1 & _) & Hfj & [(_ & -> & _)|(Hnz & Hb)]);
            [exact Hkeys|].
          destruct Hb as (rxn_id & rxn & x & met & t3 & Hid & _ & -> & Hmet & Hin & _).
          intros k' Hk'.
          destruct (minimize_IEX_loop_keys _ _ _ _ _ _ Hin k' Hk') as [Hold|[Hnew HI]];
            [now apply Hkeys|].
          exists j, rxn_id, x, met. repeat split; trivial.
          * intros ->. rewrite Hflux in Hfj. injection Hfj as ->. congruence.
          * apply same_but_objective_fields in Hobj.
            destruct Hobj as (_ & _ & Mt & _). rewrite Mt, M1. exact Hmet.
      - split; [reflexivity|]. intros k' []. }
    destruct HP as [_ HP]. now apply HP.
Qed.

(* ------------------------------------------------------------------ *)
(** *** The sweeps of [optimize_model_mbx] *)
(* ------------------------------------------------------------------ *)

Lemma get_by_id_rid rs id r : get_by_id rs id = Some r -> rid r = id.
Proof.
  induction rs as [|r0 rs IH]; cbn [get_by_id]; [discriminate|].
  destruct (String.eqb (rid r0) id) eqn:E; [|exact IH].
  intros H. injection H as <-. now apply String.eqb_eq.
Qed.

Lemma get_by_id_In rs r : In r rs -> exists r', get_by_id rs (rid r) = Some r'.
Proof.
  induction rs as [|r0 rs IH]; cbn [get_by_id In]; [intros []|].
  intros H. destruct (String.eqb (rid r0) (rid r)) eqn:E; [now exists r0|].
  destruct H as [->|H]; [|now apply IH].
  now rewrite String.eqb_refl in E.
Qed.

(** The progress line of a sweep turn prints and does nothing else,
    since the reaction it names is in the model. *)
Lemma sweep_print_step (b1 b2 : bool) rxn_id (f : Reaction -> string)
  (s : State) r :
  get_by_id (reactions (model s)) rxn_id = Some r ->
  exists s',
    when b1 (when b2 (rxn' <- reaction_by_id rxn_id ;; print (f rxn'))) s
    = (Ok tt, s')
    /\ same_but_console s s'.
Proof.
  intros H. destruct b1, b2; cbn [when];
    try (exists s; split; [reflexivity|apply same_but_console_refl]).
  cbv [bind reaction_by_id get_model]. rewrite H. cbv [ret print].
  eexists. split; [reflexivity|]. now repeat split.
Qed.

(** What a sweep turn that completes has done. *)
Lemma sweep_body_Ok sense label verbose parallel rxn_id d st d' st' :
  sweep_body sense label verbose parallel rxn_id d st = (Ok d', st') ->
  exists rxn v,
    get_by_id (reactions (model st)) rxn_id = Some rxn
    /\ lp_solve (solved_for (model st) sense rxn_id) = Ok v
    /\ d' = PyDict.set d rxn_id v
    /\ model st' = with_objective (model st) (Some rxn_id)
    /\ files (world st') = files (world st)
    /\ solves (world st')
       = (solves (world st) ++ [solved_for (model st) sense rxn_id])%list.
Proof.
  unfold sweep_body. intros H.
  bound H rxn s Hr. apply reaction_by_id_Ok in Hr. destruct Hr as [-> Hr].
  pose proof (get_by_id_rid _ _ _ Hr) as Hid.
  bound H u s1 Ho. destruct u.
  unfold set_objective, bind, get_model, put_model in Ho. injection Ho as <-.
  bound H v s2 Hv. unfold optimize in Hv. cbn [model world] in Hv.
  injection Hv as Hv <-. rewrite Hid in Hv.
  match type of H with
  | bind (when ?b1 (when ?b2 (bind _ (fun rxn' => print (@?f rxn'))))) _ ?s = _ =>
      destruct (sweep_print_step b1 b2 rxn_id f s rxn) as (s3 & E & (M3 & F3 & S3));
        [cbn [model with_objective reactions]; exact Hr|];
        rewrite (bind_step _ _ _ _ _ E) in H
  end.
  injection H as <- <-.
  exists rxn, v. cbn [model world files solves] in M3, F3, S3.
  rewrite Hid in M3, S3. unfold solved_for. repeat split; congruence.
Qed.

(** A sweep turn writes the objective, the console and the solve log,
    nothing else, however it ends. *)
Lemma sweep_body_frame sense label verbose parallel rxn_id d (st : State) :
  same_but_objective (model st)
    (model (snd (sweep_body sense label verbose parallel rxn_id d st)))
  /\ files (world (snd (sweep_body sense label verbose parallel rxn_id d st)))
     = files (world st).
Proof.
  unfold sweep_body.
  pose proof (reaction_by_id_state (id := rxn_id) st) as Hs.
  destruct (reaction_by_id rxn_id st) as [[r|e] st1] eqn:E; cbn in Hs; subst st1.
  - rewrite (bind_step _ _ _ _ _ E).
    apply reaction_by_id_Ok in E. destruct E as [_ E].
    cbv [bind set_objective get_model put_model optimize].
    cbn [model world fst snd files].
    match goal with |- context [lp_solve ?m] => destruct (lp_solve m) as [v|e] end;
      [|split; reflexivity].
    match goal with
    | |- context [when ?b1 (when ?b2 (fun st0 => @?c st0)) ?s] =>
        destruct b1, b2; cbn [when ret]; try (split; reflexivity)
    end.
    cbv [reaction_by_id bind get_model]. cbn [model reactions with_objective].
    rewrite E. split; reflexivity.
  - rewrite (bind_raise _ _ _ _ _ E). split; reflexivity.
Qed.

Lemma keys_set_fresh {A} (d : PyDict.dict A) k v :
  ~ In k (PyDict.keys d) ->
  PyDict.keys (PyDict.set d k v) = (PyDict.keys d ++ [k])%list.
Proof.
  unfold PyDict.keys.
  induction d as [|[k0 v0] d IH]; cbn [PyDict.set map fst In app]; [reflexivity|].
  intros H. destruct (String.eqb k0 k) eqn:E.
  - apply String.eqb_eq in E. elim H. now left.
  - cbn [map fst]. rewrite IH; [reflexivity|]. intros Hin. apply H. now right.
Qed.

(** A sweep loop that completes has solved the model once per id, each
    time with that reaction as the objective and everything else as the
    loop found it, and has assigned the ids in order. *)
Lemma sweep_loop_Ok sense label verbose parallel ids :
  forall d st d' st',
    for_each ids (sweep_body sense label verbose parallel) d st = (Ok d', st') ->
    same_but_objective (model st) (model st')
    /\ files (world st') = files (world st)
    /\ solves (world st')
       = (solves (world st) ++ map (solved_for (model st) sense) ids)%list
    /\ (NoDup (PyDict.keys d ++ ids) ->
        PyDict.keys d' = (PyDict.keys d ++ ids)%list).
Proof.
  induction ids as [|id ids IH]; intros d st d' st' H; cbn [for_each] in H.
  - injection H as <- <-. cbn [map]. rewrite !app_nil_r.
    repeat split; reflexivity.
  - bound H d1 st1 Hbody.
    apply sweep_body_Ok in Hbody.
    destruct Hbody as (rxn & v & _ & _ & -> & M1 & F1 & S1).
    destruct (IH _ _ _ _ H) as (Hobj & Hf & Hs & Hk).
    rewrite M1 in Hobj, Hs. repeat split.
    + exact Hobj.
    + congruence.
    + rewrite Hs, S1, <- app_assoc. reflexivity.
    + intros Hnd.
      assert (Hfresh : ~ In id (PyDict.keys d)).
      { apply NoDup_remove_2 in Hnd. intros Hin. apply Hnd.
        apply in_or_app. now left. }
      rewrite Hk; rewrite (keys_set_fresh _ _ _ Hfresh), <- app_assoc; trivial.
Qed.

Lemma unique_ids_filter (f : Reaction -> bool) rs :
  NoDup (map rid rs) -> NoDup (map rid (filter f rs)).
Proof.
  induction rs as [|r rs IH]; cbn [map filter]; [trivial|].
  intros H. inversion H as [|? ? Hn Hd]; subst.
  destruct (f r); cbn [map]; [|now apply IH].
  constructor; [|now apply IH].
  intros Hin. apply Hn. apply in_map_iff in Hin.
  destruct Hin as (r' & Hr' & Hin). apply filter_In in Hin.
  apply in_map_iff. exists r'. split; [exact Hr'|apply Hin].
Qed.

(** Both sweeps, when they complete. *)
Lemma sweeps_Ok verbose parallel st mins maxs st' :
  sweeps verbose parallel st = (Ok (mins, maxs), st') ->
  same_but_objective (model st) (model st')
  /\ files (world st') = files (world st)
  /\ solves (world st')
     = (solves (world st)
        ++ map (solved_for (model st) Minimize) (fecal_exchange_ids (model st))
        ++ map (solved_for (model st) Maximize) (fecal_exchange_ids (model st)))%list
  /\ (unique_ids (model st) ->
      PyDict.keys mins = fecal_exchange_ids (model st)
      /\ PyDict.keys maxs = fecal_exchange_ids (model st)).
Proof.
  unfold sweeps, minimize_sweep, maximize_sweep. intros H.
  bound H mins' st2 Hmin.
  past_printing Hmin st1 Same1. destruct Same1 as (M1 & F1 & S1).
  unfold bind at 1, get_model in Hmin.
  apply sweep_loop_Ok in Hmin. destruct Hmin as (Hobj1 & Hf1 & Hs1 & Hk1).
  bound H maxs' st4 Hmax.
  past_printing Hmax st3 Same3. destruct Same3 as (M3 & F3 & S3).
  unfold bind at 1, get_model in Hmax.
  apply sweep_loop_Ok in Hmax. destruct Hmax as (Hobj2 & Hf2 & Hs2 & Hk2).
  injection H as <- <- <-.
  rewrite <- M1 in *. rewrite <- M3 in *.
  pose proof (same_but_objective_fields _ _ Hobj1) as (_ & R & _).
  assert (Hids : fecal_exchange_ids (model st2) = fecal_exchange_ids (model st))
    by (unfold fecal_exchange_ids; now rewrite <- R).
  assert (Hsolved : forall sense,
             map (solved_for (model st2) sense) (fecal_exchange_ids (model st))
             = map (solved_for (model st) sense) (fecal_exchange_ids (model st))).
  { intros sense. apply map_ext. intros id. unfold solved_for, with_direction.
    unfold same_but_objective in Hobj1.
    change (with_objective (model st2) (Some id))
      with (with_objective (with_objective (model st2) None) (Some id)).
    rewrite <- Hobj1. reflexivity. }
  rewrite Hids in *. repeat split.
  - unfold same_but_objective in *. congruence.
  - congruence.
  - rewrite Hs2, <- S3, Hs1, <- S1, Hsolved, <- app_assoc. reflexivity.
  - apply Hk1. cbn [PyDict.keys map app]. now apply unique_ids_filter.
  - apply Hk2. cbn [PyDict.keys map app]. now apply unique_ids_filter.
Qed.

Lemma bind_frame {A B} (Q : State -> State -> Prop) (c : M A) (k : A -> M B) :
  (forall st1 st2 st3, Q st1 st2 -> Q st2 st3 -> Q st1 st3) ->
  (forall st, Q st (snd (c st))) ->
  (forall a st, Q st (snd (k a st))) ->
  forall st, Q st (snd ((x <- c ;; k x) st)).
Proof.
  intros Htrans Hc Hk st. unfold bind. specialize (Hc st).
  destruct (c st) as [[a|e] st1]; cbn [snd] in *; [|exact Hc].
  eapply Htrans; [exact Hc|apply Hk].
Qed.

Lemma keeps_network_trans s1 s2 s3 :
  keeps_network s1 s2 -> keeps_network s2 s3 -> keeps_network s1 s3.
Proof.
  unfold keeps_network, same_but_objective. intros [A1 A2] [B1 B2].
  split; congruence.
Qed.

Lemma only_prints_keeps_network c st :
  only_prints c -> keeps_network st (snd (c st)).
Proof.
  intros H. destruct (H st) as [_ (Hm & Hf & _)].
  split; [unfold same_but_objective|]; congruence.
Qed.

Lemma sweep_loop_frame sense label verbose parallel ids d st :
  keeps_network st
    (snd (for_each ids (sweep_body sense label verbose parallel) d st)).
Proof.
  apply (for_each_frame keeps_network).
  - intros s. split; reflexivity.
  - apply keeps_network_trans.
  - intros x a s _. apply sweep_body_frame.
Qed.

(** However the sweeps end, they have written the objective of the
    model and nothing else of it. *)
Lemma sweeps_frame verbose parallel st :
  keeps_network st (snd (sweeps verbose parallel st)).
Proof.
  unfold sweeps, minimize_sweep, maximize_sweep.
  apply (bind_frame keeps_network); [apply keeps_network_trans| |]; clear st.
  - apply (bind_frame keeps_network); [apply keeps_network_trans| |].
    + intros st. apply only_prints_keeps_network. auto with prints.
    + intros _ st. unfold bind at 1, get_model. apply sweep_loop_frame.
  - intros mins. apply (bind_frame keeps_network); [apply keeps_network_trans| |].
    + apply (bind_frame keeps_network); [apply keeps_network_trans| |].
      * intros st. apply only_prints_keeps_network. auto with prints.
      * intros _ st. unfold bind at 1, get_model. apply sweep_loop_frame.
    + intros maxs st. split; reflexivity.
Qed.

(** C4: however the two sweeps end, the model they leave differs from
    the model they were given in its objective only; and when they
    complete, every fecal exchange reaction was solved once in each
    direction on the model the sweeps were given with that reaction as
    its objective, so that its two solves see the same reactions and
    bounds and the same constraints, those injected before the sweeps. *)
Theorem sweeps_solve_one_model verbose parallel st :
  same_but_objective (model st) (model (snd (sweeps verbose parallel st)))
  /\ forall opt st',
       sweeps verbose parallel st = (Ok opt, st') ->
       solves (world st')
       = (solves (world st)
          ++ map (solved_for (model st) Minimize) (fecal_exchange_ids (model st))
          ++ map (solved_for (model st) Maximize) (fecal_exchange_ids (model st)))%list
       /\ forall rxn_id,
            reactions (solved_for (model st) Minimize rxn_id)
            = reactions (solved_for (model st) Maximize rxn_id)
            /\ constraints (solved_for (model st) Minimize rxn_id)
               = constraints (solved_for (model st) Maximize rxn_id)
            /\ reactions (solved_for (model st) Minimize rxn_id)
               = reactions (model st)
            /\ constraints (solved_for (model st) Minimize rxn_id)
               = constraints (model st).
Proof.
  split; [apply sweeps_frame|].
  intros [mins maxs] st' H.
  apply sweeps_Ok in H. destruct H as (_ & _ & Hs & _).
  split; [exact Hs|]. intros rxn_id. repeat split.
Qed.

(** C7: the reactions swept are those of [fecal_exchange_ids], that is
    the reactions whose id starts with ["EX_"] and ends with ["[fe]"];
    when the sweeps complete on a model with unique ids, the keys of the
    minimized and of the maximized dictionary are, both, exactly those
    ids in the order of the model's reaction list. *)
Theorem sweep_keys_in_model_order verbose parallel st mins maxs st' :
  unique_ids (model st) ->
  sweeps verbose parallel st = (Ok (mins, maxs), st') ->
  PyDict.keys mins = fecal_exchange_ids (model st)
  /\ PyDict.keys maxs = PyDict.keys mins
  /\ fecal_exchange_ids (model st)
     = map rid (filter (fun rxn => startswith (rid rxn) "EX_"
                                   && endswith (rid rxn) "[fe]")
                       (reactions (model st)))
  /\ (forall id,
        In id (PyDict.keys mins) <->
        exists rxn, In rxn (reactions (model st)) /\ rid rxn = id
                    /\ startswith id "EX_" = true /\ endswith id "[fe]" = true).
Proof.
  intros Hu H. apply sweeps_Ok in H. destruct H as (_ & _ & _ & Hk).
  destruct (Hk Hu) as [Kmin Kmax]. rewrite Kmin, Kmax.
  repeat split; trivial.
  - unfold fecal_exchange_ids. intros Hin. apply in_map_iff in Hin.
    destruct Hin as (rxn & <- & Hin). apply filter_In in Hin.
    destruct Hin as [Hin Hc]. apply andb_true_iff in Hc.
    exists rxn. destruct Hc as [Hs He]. now repeat split.
  - intros (rxn & Hin & <- & Hs & He). unfold fecal_exchange_ids.
    apply in_map, filter_In. split; [exact Hin|]. now rewrite Hs, He.
Qed.

(* ------------------------------------------------------------------ *)
(** *** The diet override of [optimize_model] *)
(* ------------------------------------------------------------------ *)

Lemma set_bounds_run id l u (st : State) r :
  get_by_id (reactions (model st)) id = Some r ->
  PrimFloat.ltb u l = false ->
  set_bounds id (Some l) (Some u) st = (Ok tt, bounds_stored st id l u).
Proof.
  intros Hr Hlt. unfold set_bounds.
  assert (E : reaction_by_id id st = (Ok r, st)).
  { cbv [reaction_by_id bind get_model]. now rewrite Hr. }
  rewrite (bind_step _ _ _ _ _ E), Hlt. reflexivity.
Qed.

Lemma store_bounds_at done r todo l u :
  ~ In (rid r) (map rid done) ->
  store_bounds (done ++ r :: todo) (rid r) l u
  = (done ++ mkReaction (rid r) l u :: todo)%list.
Proof.
  induction done as [|r0 done IH]; cbn [app store_bounds map In]; intros H.
  - now rewrite String.eqb_refl.
  - destruct (String.eqb (rid r0) (rid r)) eqn:E.
    + apply String.eqb_eq in E. elim H. now left.
    + rewrite IH; [reflexivity|]. intros Hin. apply H. now right.
Qed.

Lemma diet_1ba_reaction_rid r : rid (diet_1ba_reaction r) = rid r.
Proof. unfold diet_1ba_reaction. now destruct (diet_1ba_applies r). Qed.

(** One turn of the diet loop, at the first reaction not yet visited. *)
Lemma diet_1ba_body_run done r todo (m : Model) (w : World) :
  ~ In (rid r) (map rid done) ->
  diet_1ba_body (List.length done) tt
    (mkState (with_reactions m (done ++ r :: todo)) w)
  = (Ok tt, mkState (with_reactions m (done ++ diet_1ba_reaction r :: todo)) w).
Proof.
  intros Hfresh. unfold diet_1ba_body.
  cbv [bind get_model list_get]. cbn [model with_reactions reactions].
  rewrite nth_error_app2, Nat.sub_diag by lia. cbn [nth_error ret].
  unfold diet_1ba_reaction, diet_1ba_applies.
  destruct (contains "Diet_" (rid r) && float_ne_zero (lower_bound r));
    cbn [andb]; [|reflexivity].
  destruct (contains "dgchol" (rid r) || contains "gchola" (rid r)
            || contains "tchola" (rid r) || contains "tdchola" (rid r));
    [|reflexivity].
  destruct (get_by_id_In (done ++ r :: todo) r) as [r' Hr'];
    [apply in_or_app; right; now left|].
  erewrite set_bounds_run; [|cbn [model with_reactions reactions]; exact Hr'|reflexivity].
  unfold bounds_stored. cbn [model world with_reactions reactions name
                               metabolites objective direction constraints solver].
  now rewrite store_bounds_at.
Qed.

Lemma diet_1ba_loop_run todo :
  forall done (m : Model) (w : World),
    NoDup (map rid (done ++ todo)) ->
    for_each (seq (List.length done) (List.length todo)) diet_1ba_body tt
      (mkState (with_reactions m (done ++ todo)) w)
    = (Ok tt,
       mkState (with_reactions m (done ++ map diet_1ba_reaction todo)) w).
Proof.
  induction todo as [|r todo IH]; intros done m w Hnd;
    cbn [List.length seq for_each map].
  - reflexivity.
  - assert (Hfresh : ~ In (rid r) (map rid done)).
    { rewrite map_app in Hnd. cbn [map] in Hnd.
      apply NoDup_remove_2 in Hnd. intros Hin. apply Hnd.
      apply in_or_app. now left. }
    rewrite (bind_step _ _ _ _ _ (diet_1ba_body_run done r todo m w Hfresh)).
    replace (done ++ diet_1ba_reaction r :: todo)%list
      with ((done ++ [diet_1ba_reaction r]) ++ todo)%list
      by (now rewrite <- app_assoc).
    replace (S (List.length done)) with (List.length (done ++ [diet_1ba_reaction r]))
      by (rewrite length_app; cbn; lia).
    rewrite IH.
    + now rewrite <- app_assoc.
    + rewrite <- app_assoc. cbn [app].
      rewrite map_app in *. cbn [map] in *.
      now rewrite diet_1ba_reaction_rid.
Qed.


(* ------------------------------------------------------------------ *)
(** *** Input resolution and the value returned *)
(* ------------------------------------------------------------------ *)

Lemma get_set_same {A} (d : PyDict.dict A) k v :
  PyDict.get (PyDict.set d k v) k = Some v.
Proof.
  induction d as [|[k0 v0] d IH]; cbn [PyDict.set PyDict.get].
  - now rewrite String.eqb_refl.
  - destruct (String.eqb k0 k) eqn:E; cbn [PyDict.get]; now rewrite E.
Qed.

Lemma get_model_Ok (st : State) m st' :
  get_model st = (Ok m, st') -> m = model st /\ st' = st.
Proof. unfold get_model. intros H. now injection H as <- <-. Qed.

(** C6: an input that is neither a model nor a path makes both
    workflows raise the [ValueError] of the input check, with no model
    at hand, no file written and no solve made; a model is taken as it
    is and a path is handed to the loader, whose result stands, so that
    for these two kinds of input the check raises nothing and the body
    of the workflow runs on the model. *)
Theorem invalid_input_raises output_path mbx_path add_1ba silent verbose
  return_outputs parallel w :
  (forall o,
      let out := optimize_model (InOther o) output_path add_1ba silent
                   return_outputs parallel w in
      result out = Raise (ValueError invalid_input_msg)
      /\ final_model out = None
      /\ files (final_world out) = files w
      /\ solves (final_world out) = solves w)
  /\ (forall o,
         let out := optimize_model_mbx (InOther o) mbx_path output_path silent
                      verbose return_outputs parallel w in
         result out = Raise (ValueError invalid_input_msg)
         /\ final_model out = None
         /\ files (final_world out) = files w
         /\ solves (final_world out) = solves w)
  /\ (forall m simple, resolve_input (InModel m) simple = Ok m)
  /\ (forall p simple, resolve_input (InPath p) simple = load_model p simple)
  /\ (forall model_input m,
         model_input = InModel m
         \/ (exists p, model_input = InPath p /\ load_model p (Some true) = Ok m) ->
         exists w1,
           files w1 = files w /\ solves w1 = solves w
           /\ optimize_model model_input output_path add_1ba silent
                return_outputs parallel w
              = run_on (Ok m)
                  (optimize_model_body model_input output_path add_1ba silent
                     return_outputs parallel) w1)
  /\ (forall model_input m,
         model_input = InModel m
         \/ (exists p, model_input = InPath p /\ load_model p None = Ok m) ->
         exists w1,
           files w1 = files w /\ solves w1 = solves w
           /\ optimize_model_mbx model_input mbx_path output_path silent verbose
                return_outputs parallel w
              = run_on (Ok m)
                  (optimize_model_mbx_body model_input mbx_path output_path
                     silent verbose return_outputs parallel) w1).
Proof.
  split; [|split; [|split; [|split; [|split]]]].
  - intros o out. subst out. unfold optimize_model, run_on.
    cbn [resolve_input result final_model final_world].
    destruct parallel; repeat split; reflexivity.
  - intros o out. subst out. unfold optimize_model_mbx, run_on.
    cbn [resolve_input result final_model final_world].
    destruct parallel; repeat split; reflexivity.
  - reflexivity.
  - reflexivity.
  - intros model_input m [->|(p & -> & Hp)]; unfold optimize_model;
      cbn [resolve_input]; try rewrite Hp;
      eexists; (split; [|split; [|reflexivity]]); destruct parallel; reflexivity.
  - intros model_input m [->|(p & -> & Hp)]; unfold optimize_model_mbx;
      cbn [resolve_input]; try rewrite Hp;
      eexists; (split; [|split; [|reflexivity]]); destruct parallel; reflexivity.
Qed.

(* ------------------------------------------------------------------ *)
(** *** The output files *)
(* ------------------------------------------------------------------ *)










(* ------------------------------------------------------------------ *)
(** *** The verbosity flags *)
(* ------------------------------------------------------------------ *)

Lemma agree_ret {A} (a : A) : agree (ret a) (ret a).
Proof. intros st1 st2 H. now split. Qed.

Lemma agree_raise {A} e : agree (@raise _ A e) (raise e).
Proof. intros st1 st2 H. now split. Qed.

Lemma agree_bind {A B} (c1 c2 : M A) (k1 k2 : A -> M B) :
  agree c1 c2 -> (forall a, agree (k1 a) (k2 a)) ->
  agree (x <- c1 ;; k1 x) (x <- c2 ;; k2 x).
Proof.
  intros Hc Hk st1 st2 H. unfold bind.
  destruct (Hc st1 st2 H) as [R S].
  destruct (c1 st1) as [[a1|e1] s1], (c2 st2) as [[a2|e2] s2];
    cbn [fst snd] in R, S; try discriminate.
  - injection R as <-. now apply Hk.
  - injection R as <-. now split.
Qed.

Lemma agree_prints (c1 c2 : M unit) :
  only_prints c1 -> only_prints c2 -> agree c1 c2.
Proof.
  intros H1 H2 st1 st2 H.
  destruct (H1 st1) as [R1 S1], (H2 st2) as [R2 S2].
  split; [congruence|].
  eapply same_but_console_trans; [apply same_but_console_sym; exact S1|].
  eapply same_but_console_trans; [exact H|exact S2].
Qed.

Lemma agree_for_each {X A} (xs : list X) (b1 b2 : X -> A -> M A) :
  (forall x a, agree (b1 x a) (b2 x a)) ->
  forall a, agree (for_each xs b1 a) (for_each xs b2 a).
Proof.
  intros Hb. induction xs as [|x xs IH]; intros a; cbn [for_each].
  - apply agree_ret.
  - apply agree_bind; [apply Hb|exact IH].
Qed.

Lemma agree_if {A} (b : bool) (c1 c2 d1 d2 : M A) :
  agree c1 c2 -> agree d1 d2 ->
  agree (if b then c1 else d1) (if b then c2 else d2).
Proof. now destruct b. Qed.

(** The operations on the model do not look at the console. *)
Ltac blind_step :=
  let st1 := fresh "st" in
  let st2 := fresh "st" in
  let Hm := fresh "Hm" in
  let Hf := fresh "Hf" in
  let Hs := fresh "Hs" in
  intros st1 st2 (Hm & Hf & Hs);
  cbv [get_model put_model write_file optimize];
  repeat split; cbn [fst snd model world files solves];
  rewrite ?Hm, ?Hf, ?Hs; reflexivity.

Lemma agree_get_model : agree get_model get_model.
Proof. blind_step. Qed.

Lemma agree_put_model m : agree (put_model m) (put_model m).
Proof. blind_step. Qed.

Lemma agree_write_file path content :
  agree (write_file path content) (write_file path content).
Proof. blind_step. Qed.

Lemma agree_optimize sense : agree (optimize sense) (optimize sense).
Proof. blind_step. Qed.

Lemma agree_list_get {A} (xs : list A) i : agree (list_get xs i) (list_get xs i).
Proof.
  unfold list_get. destruct (nth_error xs i); [apply agree_ret|apply agree_raise].
Qed.

Lemma agree_with_model {A} (k1 k2 : Model -> M A) :
  (forall m, agree (k1 m) (k2 m)) ->
  agree (m <- get_model ;; k1 m) (m <- get_model ;; k2 m).
Proof. intros H. apply agree_bind; [apply agree_get_model|exact H]. Qed.

Lemma agree_reaction_by_id id : agree (reaction_by_id id) (reaction_by_id id).
Proof.
  unfold reaction_by_id. apply agree_with_model. intros m.
  destruct (get_by_id (reactions m) id); [apply agree_ret|apply agree_raise].
Qed.

Lemma agree_metabolite_by_id id :
  agree (metabolite_by_id id) (metabolite_by_id id).
Proof.
  unfold metabolite_by_id. apply agree_with_model. intros m.
  destruct (get_metabolite (metabolites m) id); [apply agree_ret|apply agree_raise].
Qed.

Lemma agree_set_objective rxn : agree (set_objective rxn) (set_objective rxn).
Proof.
  unfold set_objective. apply agree_with_model. intros m. apply agree_put_model.
Qed.

Lemma agree_set_objective_by_id id :
  agree (set_objective_by_id id) (set_objective_by_id id).
Proof.
  unfold set_objective_by_id. apply agree_with_model. intros m.
  destruct (get_by_id (reactions m) id);
    [apply agree_set_objective|apply agree_raise].
Qed.

Lemma agree_set_bounds id lb ub : agree (set_bounds id lb ub) (set_bounds id lb ub).
Proof.
  unfold set_bounds. apply agree_bind; [apply agree_reaction_by_id|]. intros _.
  destruct lb as [l|], ub as [u|]; try apply agree_raise.
  destruct (PrimFloat.ltb u l); [apply agree_raise|].
  apply agree_with_model. intros m. apply agree_put_model.
Qed.

Lemma agree_set_solver s : agree (set_solver s) (set_solver s).
Proof.
  unfold set_solver. apply agree_with_model. intros m. apply agree_put_model.
Qed.

Lemma agree_add_cons_vars cs : agree (add_cons_vars cs) (add_cons_vars cs).
Proof.
  unfold add_cons_vars. apply agree_with_model. intros m. apply agree_put_model.
Qed.

#[local] Hint Resolve agree_ret agree_raise agree_get_model agree_put_model
  agree_write_file agree_optimize agree_list_get agree_reaction_by_id
  agree_metabolite_by_id agree_set_objective agree_set_objective_by_id
  agree_set_bounds agree_set_solver agree_add_cons_vars : prints.

(** Two computations built alike from steps that agree. *)
Ltac agree_steps :=
  repeat first
    [ apply agree_prints; solve [auto with prints]
    | solve [auto with prints]
    | apply agree_with_model; intros ?
    | apply agree_bind; [|intros ?]
    | apply agree_for_each; intros ? ?
    | apply agree_if ].

Lemma agree_diet_1ba : agree add_diet_1ba add_diet_1ba.
Proof.
  unfold add_diet_1ba. agree_steps.
Qed.

Lemma agree_maximize_body p1 p2 counter_max rxn acc :
  agree (maximize_body p1 counter_max rxn acc)
        (maximize_body p2 counter_max rxn acc).
Proof. unfold maximize_body. agree_steps. Qed.

Lemma agree_minimize_IEX_body p1 p2 rxn_id d :
  agree (minimize_IEX_body p1 rxn_id d) (minimize_IEX_body p2 rxn_id d).
Proof.
  unfold minimize_IEX_body. destruct (contains "IEX" rxn_id); agree_steps.
Qed.

Lemma agree_propagate_body p1 p2 rxn_list fluxes counter_max i acc :
  agree (propagate_body p1 rxn_list fluxes counter_max i acc)
        (propagate_body p2 rxn_list fluxes counter_max i acc).
Proof.
  unfold propagate_body. agree_steps.
Qed.

Lemma agree_propagate_and_minimize p1 p2 rxn_list fluxes :
  agree (propagate_and_minimize p1 rxn_list fluxes)
        (propagate_and_minimize p2 rxn_list fluxes).
Proof.
  unfold propagate_and_minimize. agree_steps.
Qed.

(** A sweep turn run forward: the solve is made on the model with the
    reaction as its objective, and the progress line cannot raise, since
    the reaction it looks up is the one the turn has found. *)
Lemma sweep_body_run sense label verbose parallel rxn_id d st r :
  get_by_id (reactions (model st)) rxn_id = Some r ->
  let solved := with_direction (with_objective (model st) (Some (rid r))) sense in
  let base :=
    mkState (with_objective (model st) (Some (rid r)))
            (mkWorld (console (world st)) (files (world st))
                     (solves (world st) ++ [solved])%list) in
  exists st',
    same_but_console base st'
    /\ sweep_body sense label verbose parallel rxn_id d st
       = (match lp_solve solved with
          | Ok v => Ok (PyDict.set d rxn_id v)
          | Raise e => Raise e
          end, st').
Proof.
  intros Hr solved base. unfold sweep_body.
  assert (E : reaction_by_id rxn_id st = (Ok r, st)).
  { cbv [reaction_by_id bind get_model]. now rewrite Hr. }
  rewrite (bind_step _ _ _ _ _ E).
  rewrite (bind_step (set_objective r) _ st tt
             (mkState (with_objective (model st) (Some (rid r))) (world st))
             eq_refl).
  assert (Eo : optimize (Some sense)
                 (mkState (with_objective (model st) (Some (rid r))) (world st))
               = (lp_solve solved, base)) by reflexivity.
  destruct (lp_solve solved) as [v|e].
  - rewrite (bind_step _ _ _ _ _ Eo).
    match goal with
    | |- context [bind (when ?b1 (when ?b2 (bind _ (fun rxn' => print (@?f rxn'))))) _ base] =>
        destruct (sweep_print_step b1 b2 rxn_id f base r) as (s3 & Ep & Same);
          [exact Hr|]
    end.
    rewrite (bind_step _ _ _ _ _ Ep). exists s3. now split.
  - rewrite (bind_raise _ _ _ _ _ Eo). exists base.
    split; [apply same_but_console_refl|reflexivity].
Qed.

Lemma sweep_body_missing sense label verbose parallel rxn_id d st :
  get_by_id (reactions (model st)) rxn_id = None ->
  sweep_body sense label verbose parallel rxn_id d st = (Raise (KeyError rxn_id), st).
Proof.
  intros Hr. unfold sweep_body.
  assert (E : reaction_by_id rxn_id st = (Raise (KeyError rxn_id), st)).
  { cbv [reaction_by_id bind get_model]. now rewrite Hr. }
  now rewrite (bind_raise _ _ _ _ _ E).
Qed.

(** A sweep turn ends alike under any two settings of [verbose] and
    [parallel]. *)
Lemma agree_sweep_body sense label v1 p1 v2 p2 rxn_id d :
  agree (sweep_body sense label v1 p1 rxn_id d)
        (sweep_body sense label v2 p2 rxn_id d).
Proof.
  intros st1 st2 (Hm & Hf & Hs).
  destruct (get_by_id (reactions (model st1)) rxn_id) as [r|] eqn:Hr.
  - destruct (sweep_body_run sense label v1 p1 rxn_id d st1 r Hr)
      as (s1 & (M1 & F1 & S1) & ->).
    rewrite Hm in Hr.
    destruct (sweep_body_run sense label v2 p2 rxn_id d st2 r Hr)
      as (s2 & (M2 & F2 & S2) & ->).
    cbn [model world files solves fst snd] in *. rewrite Hm.
    split; [reflexivity|]. repeat split; congruence.
  - rewrite (sweep_body_missing _ _ _ _ _ _ _ Hr).
    rewrite Hm in Hr. rewrite (sweep_body_missing _ _ _ _ _ _ _ Hr).
    split; [reflexivity|]. now repeat split.
Qed.

Lemma agree_sweeps v1 p1 v2 p2 : agree (sweeps v1 p1) (sweeps v2 p2).
Proof.
  assert (Hsweep : forall sense label ids,
             agree (for_each ids (sweep_body sense label v1 p1) [])
                   (for_each ids (sweep_body sense label v2 p2) [])).
  { intros sense label ids. apply agree_for_each. intros x a.
    apply agree_sweep_body. }
  unfold sweeps.
  apply agree_bind; [|intros mins; apply agree_bind; [|intros maxs; apply agree_ret]].
  - unfold minimize_sweep.
    apply agree_bind; [apply agree_prints; auto with prints|intros _].
    apply agree_with_model. intros m. apply Hsweep.
  - unfold maximize_sweep.
    apply agree_bind; [apply agree_prints; auto with prints|intros _].
    apply agree_with_model. intros m. apply Hsweep.
Qed.

Section Verbosity.

(** What the workflows take for granted of the helpers: what they
    return and what they do to the model, the files and the solve log
    depends neither on the verbosity flag they are given nor on what
    has been printed so far. *)
Hypothesis set_default_bounds_quiet :
  forall rxn_type s1 s2,
    agree (set_default_bounds rxn_type s1) (set_default_bounds rxn_type s2).
Hypothesis fetch_norm_sample_mbx_data_quiet :
  forall mbx_path out s1 s2,
    agree (fetch_norm_sample_mbx_data mbx_path out s1)
          (fetch_norm_sample_mbx_data mbx_path out s2).
Hypothesis fetch_mbx_constr_list_quiet :
  forall data, agree (fetch_mbx_constr_list data) (fetch_mbx_constr_list data).
Hypothesis solve_mbx_constraints_quiet :
  forall cs p1 p2,
    agree (solve_mbx_constraints cs p1) (solve_mbx_constraints cs p2).

Lemma agree_optimize_model_body model_input output_path add_1ba return_outputs
  s1 p1 s2 p2 :
  agree (optimize_model_body model_input output_path add_1ba s1 return_outputs p1)
        (optimize_model_body model_input output_path add_1ba s2 return_outputs p2).
Proof using Type set_default_bounds_quiet.
  unfold optimize_model_body.
  apply agree_bind; [apply set_default_bounds_quiet|intros _].
  apply agree_bind;
    [destruct add_1ba; [apply agree_diet_1ba|apply agree_ret]|intros _].
  agree_steps.
Qed.

Lemma agree_optimize_model_mbx_body model_input mbx_path output_path
  return_outputs s1 v1 p1 s2 v2 p2 :
  agree (optimize_model_mbx_body model_input mbx_path output_path s1 v1
           return_outputs p1)
        (optimize_model_mbx_body model_input mbx_path output_path s2 v2
           return_outputs p2).
Proof using Type set_default_bounds_quiet fetch_norm_sample_mbx_data_quiet
  fetch_mbx_constr_list_quiet solve_mbx_constraints_quiet.
  unfold optimize_model_mbx_body.
  apply agree_bind; [apply agree_set_solver|intros _].
  apply agree_bind; [apply fetch_norm_sample_mbx_data_quiet|intros data].
  apply agree_bind; [apply set_default_bounds_quiet|intros _].
  apply agree_bind; [apply fetch_mbx_constr_list_quiet|intros cs].
  apply agree_bind; [apply solve_mbx_constraints_quiet|intros constr].
  apply agree_bind; [apply agree_add_cons_vars|intros _].
  apply agree_bind; [apply agree_sweeps|intros opt].
  agree_steps.
Qed.

Lemma agree_run_on {A} (resolved : Res Model) (b1 b2 : M A) w1 w2 :
  agree b1 b2 ->
  files w1 = files w2 -> solves w1 = solves w2 ->
  result (run_on resolved b1 w1) = result (run_on resolved b2 w2)
  /\ final_model (run_on resolved b1 w1) = final_model (run_on resolved b2 w2)
  /\ files (final_world (run_on resolved b1 w1))
     = files (final_world (run_on resolved b2 w2))
  /\ solves (final_world (run_on resolved b1 w1))
     = solves (final_world (run_on resolved b2 w2)).
Proof.
  intros Hb Hf Hs. unfold run_on. destruct resolved as [m|e].
  - destruct (Hb (mkState m w1) (mkState m w2)) as [R (Sm & Sf & Ss)];
      [now repeat split|].
    destruct (b1 (mkState m w1)) as [r1 st1], (b2 (mkState m w2)) as [r2 st2].
    cbn [fst snd result final_model final_world] in *.
    repeat split; congruence.
  - cbn [result final_model final_world]. now repeat split.
Qed.

(** C10: two runs of a workflow on the same input and from the same
    world that differ only in [silent], [verbose] and [parallel] return
    the same value (or raise the same exception), leave the same model,
    the same files with the same contents, and have made the same
    solves: the flags only change what is printed. *)
Theorem verbosity_flags_only_print model_input mbx_path output_path add_1ba
  return_outputs silent1 verbose1 parallel1 silent2 verbose2 parallel2 w :
  (let o1 := optimize_model model_input output_path add_1ba silent1
               return_outputs parallel1 w in
   let o2 := optimize_model model_input output_path add_1ba silent2
               return_outputs parallel2 w in
   result o1 = result o2
   /\ final_model o1 = final_model o2
   /\ files (final_world o1) = files (final_world o2)
   /\ solves (final_world o1) = solves (final_world o2))
  /\ (let o1 := optimize_model_mbx model_input mbx_path output_path silent1
                  verbose1 return_outputs parallel1 w in
      let o2 := optimize_model_mbx model_input mbx_path output_path silent2
                  verbose2 return_outputs parallel2 w in
      result o1 = result o2
      /\ final_model o1 = final_model o2
      /\ files (final_world o1) = files (final_world o2)
      /\ solves (final_world o1) = solves (final_world o2)).
Proof using Type set_default_bounds_quiet fetch_norm_sample_mbx_data_quiet
  fetch_mbx_constr_list_quiet solve_mbx_constraints_quiet.
  split; cbv zeta.
  - unfold optimize_model. apply agree_run_on.
    + apply agree_optimize_model_body.
    + now destruct parallel1, parallel2.
    + now destruct parallel1, parallel2.
  - unfold optimize_model_mbx. apply agree_run_on.
    + apply agree_optimize_model_mbx_body.
    + now destruct parallel1, parallel2.
    + now destruct parallel1, parallel2.
Qed.

End Verbosity.

(* ------------------------------------------------------------------ *)
(** *** Further properties: files *)
(* ------------------------------------------------------------------ *)

Lemma writes_no_file_ret {A} (a : A) : writes_no_file (ret a).
Proof. intros st. reflexivity. Qed.

Lemma writes_no_file_raise {A} e : writes_no_file (@raise _ A e).
Proof. intros st. reflexivity. Qed.

Lemma writes_no_file_bind {A B} (c : M A) (k : A -> M B) :
  writes_no_file c -> (forall a, writes_no_file (k a)) ->
  writes_no_file (x <- c ;; k x).
Proof.
  intros Hc Hk st. unfold bind. specialize (Hc st).
  destruct (c st) as [[a|e] st1]; cbn [snd] in *; [|exact Hc].
  now rewrite Hk.
Qed.

Lemma writes_no_file_for_each {X A} (xs : list X) (body : X -> A -> M A) :
  (forall x a, writes_no_file (body x a)) ->
  forall a, writes_no_file (for_each xs body a).
Proof.
  intros Hb. induction xs as [|x xs IH]; intros a; cbn [for_each].
  - apply writes_no_file_ret.
  - apply writes_no_file_bind; [apply Hb|exact IH].
Qed.

Lemma writes_no_file_if {A} (b : bool) (c d : M A) :
  writes_no_file c -> writes_no_file d -> writes_no_file (if b then c else d).
Proof. now destruct b. Qed.

Lemma writes_no_file_when b c : writes_no_file c -> writes_no_file (when b c).
Proof. destruct b; [trivial|]. intros _. apply writes_no_file_ret. Qed.

Lemma writes_no_file_get_model : writes_no_file get_model.
Proof. intros st. reflexivity. Qed.

Lemma writes_no_file_put_model m : writes_no_file (put_model m).
Proof. intros st. reflexivity. Qed.

Lemma writes_no_file_print msg : writes_no_file (print msg).
Proof. intros st. reflexivity. Qed.

Lemma writes_no_file_optimize sense : writes_no_file (optimize sense).
Proof. intros st. reflexivity. Qed.

Lemma writes_no_file_list_get {A} (xs : list A) i : writes_no_file (list_get xs i).
Proof.
  unfold list_get.
  destruct (nth_error xs i); [apply writes_no_file_ret|apply writes_no_file_raise].
Qed.

Create HintDb files discriminated.
#[local] Hint Resolve writes_no_file_ret writes_no_file_raise
  writes_no_file_get_model writes_no_file_put_model writes_no_file_print
  writes_no_file_optimize writes_no_file_list_get : files.

(** Take a computation apart down to steps that write no file. *)
Ltac no_file_steps :=
  repeat first
    [ solve [auto with files]
    | apply writes_no_file_bind; [|intros ?]
    | apply writes_no_file_for_each; intros ? ?
    | apply writes_no_file_when
    | apply writes_no_file_if
    | match goal with
      | |- writes_no_file (match ?x with _ => _ end) => destruct x
      end ].

Lemma writes_no_file_reaction_by_id id : writes_no_file (reaction_by_id id).
Proof. unfold reaction_by_id. no_file_steps. Qed.

Lemma writes_no_file_metabolite_by_id id : writes_no_file (metabolite_by_id id).
Proof. unfold metabolite_by_id. no_file_steps. Qed.

Lemma writes_no_file_set_objective rxn : writes_no_file (set_objective rxn).
Proof. unfold set_objective. no_file_steps. Qed.

Lemma writes_no_file_set_objective_by_id id :
  writes_no_file (set_objective_by_id id).
Proof.
  unfold set_objective_by_id. no_file_steps.
Qed.

Lemma writes_no_file_set_bounds id lb ub : writes_no_file (set_bounds id lb ub).
Proof.
  unfold set_bounds.
  apply writes_no_file_bind; [apply writes_no_file_reaction_by_id|intros _].
  no_file_steps.
Qed.

#[local] Hint Resolve writes_no_file_reaction_by_id
  writes_no_file_metabolite_by_id writes_no_file_set_objective
  writes_no_file_set_objective_by_id writes_no_file_set_bounds : files.

Lemma writes_no_file_diet : writes_no_file add_diet_1ba.
Proof. unfold add_diet_1ba, diet_1ba_body. no_file_steps. Qed.

Lemma writes_no_file_maximize_body parallel counter_max rxn acc :
  writes_no_file (maximize_body parallel counter_max rxn acc).
Proof. unfold maximize_body. no_file_steps. Qed.

Lemma writes_no_file_minimize_IEX_body parallel rxn_id d :
  writes_no_file (minimize_IEX_body parallel rxn_id d).
Proof. unfold minimize_IEX_body. no_file_steps. Qed.

Lemma writes_no_file_propagate_body parallel rxn_list fluxes counter_max i acc :
  writes_no_file (propagate_body parallel rxn_list fluxes counter_max i acc).
Proof.
  unfold propagate_body. no_file_steps.
Qed.

Lemma writes_no_file_propagate_and_minimize parallel rxn_list fluxes :
  writes_no_file (propagate_and_minimize parallel rxn_list fluxes).
Proof.
  unfold propagate_and_minimize. no_file_steps.
Qed.

Lemma bind_Raise {A B} (c : M A) (k : A -> M B) st e st' :
  (x <- c ;; k x) st = (Raise e, st') ->
  c st = (Raise e, st')
  \/ exists a st1, c st = (Ok a, st1) /\ k a st1 = (Raise e, st').
Proof.
  unfold bind. destruct (c st) as [[a|e1] st1]; intros H.
  - right. now exists a, st1.
  - left. now injection H as -> ->.
Qed.

(* ------------------------------------------------------------------ *)
(** *** Further properties: Part 1 of [optimize_model] *)
(* ------------------------------------------------------------------ *)

(** A maximize turn run forward on a reaction of the model: one solve,
    of the model with that reaction as its objective and in the model's
    own direction. *)
Lemma maximize_body_run parallel counter_max rxn acc st r :
  get_by_id (reactions (model st)) rxn = Some r ->
  exists st',
    maximize_body parallel counter_max rxn acc st
    = (match lp_solve (with_objective (model st) (Some rxn)) with
       | Ok v => Ok (fst acc + 1, (snd acc ++ [v])%list)
       | Raise e => Raise e
       end, st')
    /\ model st' = with_objective (model st) (Some rxn)
    /\ files (world st') = files (world st)
    /\ solves (world st')
       = (solves (world st) ++ [with_objective (model st) (Some rxn)])%list.
Proof.
  intros Hr. pose proof (get_by_id_rid _ _ _ Hr) as Hid. unfold maximize_body.
  match goal with
  | |- exists _, bind ?c (fun _ => ?k) st = _ /\ _ =>
      destruct (only_prints_then c k st ltac:(auto with prints))
        as (st1 & (M1 & F1 & S1) & ->)
  end.
  assert (Eo : set_objective_by_id rxn st1
               = (Ok tt, mkState (with_objective (model st) (Some rxn)) (world st1))).
  { rewrite M1. rewrite M1 in Hr.
    cbv [set_objective_by_id set_objective bind get_model put_model].
    rewrite Hr, Hid. reflexivity. }
  rewrite (bind_step _ _ _ _ _ Eo).
  assert (Ev : optimize None
                 (mkState (with_objective (model st) (Some rxn)) (world st1))
               = (lp_solve (with_objective (model st) (Some rxn)),
                  mkState (with_objective (model st) (Some rxn))
                    (mkWorld (console (world st1)) (files (world st1))
                       (solves (world st1)
                        ++ [with_objective (model st) (Some rxn)])%list)))
    by reflexivity.
  destruct (lp_solve (with_objective (model st) (Some rxn))) as [v|e].
  - rewrite (bind_step _ _ _ _ _ Ev).
    match goal with
    | |- exists _, bind ?c (fun _ => ?k) ?s = _ /\ _ =>
        destruct (only_prints_then c k s ltac:(auto with prints))
          as (st2 & (M2 & F2 & S2) & ->)
    end.
    exists st2. cbn [model world files solves] in M2, F2, S2.
    repeat split; try reflexivity; congruence.
  - rewrite (bind_raise _ _ _ _ _ Ev). eexists. split; [reflexivity|].
    cbn [model world files solves]. repeat split; congruence.
Qed.

Lemma maximize_body_missing parallel counter_max rxn acc st :
  get_by_id (reactions (model st)) rxn = None ->
  fst (maximize_body parallel counter_max rxn acc st)
  = Raise (ValueError "invalid objective").
Proof.
  intros Hr. unfold maximize_body.
  match goal with
  | |- fst (bind ?c (fun _ => ?k) st) = _ =>
      destruct (only_prints_then c k st ltac:(auto with prints))
        as (st1 & (M1 & F1 & S1) & ->)
  end.
  assert (Eo : set_objective_by_id rxn st1
               = (Raise (ValueError "invalid objective"), st1)).
  { rewrite M1 in Hr. cbv [set_objective_by_id bind get_model raise].
    now rewrite Hr. }
  now rewrite (bind_raise _ _ _ _ _ Eo).
Qed.

(** The maximize loop, when it completes. *)
Lemma maximize_loop_Ok parallel counter_max ids :
  forall acc st acc' st',
    for_each ids (maximize_body parallel counter_max) acc st = (Ok acc', st') ->
    fst acc' = fst acc + List.length ids
    /\ (exists vs,
          snd acc' = (snd acc ++ vs)%list
          /\ Forall2 (fun id v =>
                        lp_solve (with_objective (model st) (Some id)) = Ok v)
               ids vs)
    /\ solves (world st')
       = (solves (world st)
          ++ map (fun id => with_objective (model st) (Some id)) ids)%list
    /\ same_but_objective (model st) (model st')
    /\ files (world st') = files (world st).
Proof.
  induction ids as [|id ids IH]; intros acc st acc' st' H; cbn [for_each] in H.
  - injection H as <- <-. cbn [List.length map]. rewrite Nat.add_0_r, app_nil_r.
    repeat split; trivial. exists []. now rewrite app_nil_r.
  - bound H acc1 st1 Hbody.
    destruct (get_by_id (reactions (model st)) id) as [r|] eqn:Hr.
    + destruct (maximize_body_run parallel counter_max id acc st r Hr)
        as (st1' & E & M1 & F1 & S1).
      rewrite Hbody in E.
      destruct (lp_solve (with_objective (model st) (Some id))) as [v|e] eqn:Hv;
        [|discriminate].
      injection E as -> <-.
      destruct (IH _ _ _ _ H) as (Hc & (vs & Hvs & Hall) & Hs & Hobj & Hf).
      rewrite M1 in Hall, Hs, Hobj. cbn [fst snd] in Hc, Hvs.
      repeat split.
      * rewrite Hc. cbn [List.length]. lia.
      * exists (v :: vs). split; [now rewrite Hvs, <- app_assoc|].
        constructor; [exact Hv|exact Hall].
      * rewrite Hs, S1, <- app_assoc. reflexivity.
      * exact Hobj.
      * congruence.
    + pose proof (maximize_body_missing parallel counter_max id acc st Hr) as E.
      rewrite Hbody in E. discriminate E.
Qed.

(** X1: when the maximize loop of Part 1 completes, it has solved the
    model once per transporter, in the order of the list, each time with
    that transporter as the only change to the model the loop was given
    (its objective) and in the model's own direction; the flux list
    holds the solver's answers in that order and is as long as the list
    of transporters, as is the counter; bounds and files are untouched. *)
Theorem maximize_loop_solves_each_transporter parallel counter_max rxn_list st acc st' :
  for_each rxn_list (maximize_body parallel counter_max) (0, []) st = (Ok acc, st') ->
  fst acc = List.length rxn_list
  /\ List.length (snd acc) = List.length rxn_list
  /\ Forall2 (fun id v => lp_solve (with_objective (model st) (Some id)) = Ok v)
       rxn_list (snd acc)
  /\ solves (world st')
     = (solves (world st)
        ++ map (fun id => with_objective (model st) (Some id)) rxn_list)%list
  /\ same_but_objective (model st) (model st')
  /\ files (world st') = files (world st).
Proof.
  intros H. apply maximize_loop_Ok in H.
  destruct H as (Hc & (vs & Hvs & Hall) & Hs & Hobj & Hf).
  cbn [fst snd app] in Hc, Hvs. subst vs.
  repeat split; trivial.
  symmetry. eapply Forall2_length. exact Hall.
Qed.

Lemma UFEt_rxn_list_in_model (m : Model) id :
  In id (UFEt_rxn_list m) -> exists r, get_by_id (reactions m) id = Some r.
Proof.
  unfold UFEt_rxn_list. intros H. apply in_map_iff in H.
  destruct H as (r & <- & Hin). apply filter_In in Hin.
  apply get_by_id_In. apply Hin.
Qed.

Lemma maximize_loop_Raise parallel counter_max ids :
  forall acc st e st',
    (forall id, In id ids -> exists r, get_by_id (reactions (model st)) id = Some r) ->
    for_each ids (maximize_body parallel counter_max) acc st = (Raise e, st') ->
    exists id,
      In id ids /\ lp_solve (with_objective (model st) (Some id)) = Raise e.
Proof.
  induction ids as [|id ids IH]; intros acc st e st' Hin H; cbn [for_each] in H.
  - discriminate.
  - destruct (Hin id (or_introl eq_refl)) as [r Hr].
    destruct (maximize_body_run parallel counter_max id acc st r Hr)
      as (st1 & E & M1 & F1 & S1).
    apply bind_Raise in H. destruct H as [H|(acc1 & s1 & Hb & H)].
    + rewrite H in E. exists id. split; [now left|].
      destruct (lp_solve (with_objective (model st) (Some id))); [discriminate|].
      now injection E as -> _.
    + rewrite Hb in E.
      destruct (lp_solve (with_objective (model st) (Some id))); [|discriminate].
      injection E as _ ->.
      assert (Hin' : forall id',
                 In id' ids ->
                 exists r, get_by_id (reactions (model st1)) id' = Some r).
      { intros id' Hid'. rewrite M1. cbn [with_objective reactions].
        apply Hin. now right. }
      destruct (IH _ _ _ _ Hin' H) as (id' & Hid' & Hs).
      rewrite M1 in Hs. exists id'. split; [now right|exact Hs].
Qed.

(** X2: on the transporters of the model it is given, the maximize loop
    of Part 1 raises nothing of its own: when it does not complete, the
    exception is one the solver raised on the model with one of the
    transporters as its objective; and however it ends, it has written
    no file. *)
Theorem maximize_loop_raises_only_solver parallel counter_max acc st :
  writes_no_file
    (for_each (UFEt_rxn_list (model st)) (maximize_body parallel counter_max) acc)
  /\ forall e st',
       for_each (UFEt_rxn_list (model st)) (maximize_body parallel counter_max)
         acc st = (Raise e, st') ->
       exists id,
         In id (UFEt_rxn_list (model st))
         /\ lp_solve (with_objective (model st) (Some id)) = Raise e.
Proof.
  split.
  - apply writes_no_file_for_each. intros x a.
    apply writes_no_file_maximize_body.
  - intros e st' H. eapply maximize_loop_Raise; [|exact H].
    apply UFEt_rxn_list_in_model.
Qed.

(* ------------------------------------------------------------------ *)
(** *** Further properties: the dictionaries returned *)
(* ------------------------------------------------------------------ *)

Lemma set_fresh {A} (d : PyDict.dict A) k v :
  ~ In k (PyDict.keys d) -> PyDict.set d k v = (d ++ [(k, v)])%list.
Proof.
  unfold PyDict.keys.
  induction d as [|[k0 v0] d IH]; cbn [PyDict.set map fst In app]; [reflexivity|].
  intros H. destruct (String.eqb k0 k) eqn:E.
  - apply String.eqb_eq in E. elim H. now left.
  - rewrite IH; [reflexivity|]. intros Hin. apply H. now right.
Qed.

Lemma fold_set_fresh {A} (kvs : list (string * A)) :
  forall d,
    NoDup (PyDict.keys d ++ map fst kvs) ->
    fold_left (fun d kv => PyDict.set d (fst kv) (snd kv)) kvs d = (d ++ kvs)%list.
Proof.
  induction kvs as [|[k v] kvs IH]; intros d H; cbn [fold_left map fst snd] in *.
  - now rewrite app_nil_r.
  - assert (Hfresh : ~ In k (PyDict.keys d)).
    { apply NoDup_remove_2 in H. intros Hin. apply H. apply in_or_app. now left. }
    rewrite (set_fresh _ _ _ Hfresh), IH.
    + now rewrite <- app_assoc.
    + unfold PyDict.keys in *. rewrite map_app, <- app_assoc. exact H.
Qed.

(** Pairs with distinct keys make the dictionary that lists them. *)
Lemma of_pairs_distinct {A} (kvs : list (string * A)) :
  NoDup (map fst kvs) -> PyDict.of_pairs kvs = kvs.
Proof. intros H. unfold PyDict.of_pairs. now rewrite fold_set_fresh. Qed.

Lemma get_distinct {A} (kvs : list (string * A)) k v :
  NoDup (map fst kvs) -> In (k, v) kvs -> PyDict.get kvs k = Some v.
Proof.
  induction kvs as [|[k0 v0] kvs IH]; cbn [map fst In PyDict.get]; [intros _ []|].
  intros Hnd Hin. inversion Hnd as [|? ? Hn Hd]; subst.
  destruct Hin as [Heq|Hin].
  - injection Heq as -> ->. now rewrite String.eqb_refl.
  - destruct (String.eqb k0 k) eqn:E; [|now apply IH].
    apply String.eqb_eq in E. subst k0. elim Hn.
    apply in_map_iff. now exists (k, v).
Qed.

Lemma map_fst_combine {A B} (xs : list A) (ys : list B) :
  List.length ys = List.length xs -> map fst (combine xs ys) = xs.
Proof.
  revert ys. induction xs as [|x xs IH]; intros [|y ys] H; cbn in *;
    try reflexivity; try discriminate.
  now rewrite IH by lia.
Qed.

(** X3: on a model with unique ids, the maximized-flux dictionary built
    from the transporters and their fluxes lists the transporters in the
    order of the model, each with the flux found for it: its keys are the
    transporters, and looking up the i-th transporter gives the i-th
    flux. *)
Theorem maximized_flux_dict_in_model_order (m : Model) (fluxes : list (option float)) :
  unique_ids m ->
  List.length fluxes = List.length (UFEt_rxn_list m) ->
  PyDict.of_pairs (combine (UFEt_rxn_list m) fluxes)
  = combine (UFEt_rxn_list m) fluxes
  /\ PyDict.keys (PyDict.of_pairs (combine (UFEt_rxn_list m) fluxes))
     = UFEt_rxn_list m
  /\ forall i id v,
       nth_error (UFEt_rxn_list m) i = Some id ->
       nth_error fluxes i = Some v ->
       PyDict.get (PyDict.of_pairs (combine (UFEt_rxn_list m) fluxes)) id = Some v.
Proof.
  intros Hu Hlen.
  assert (Hnd : NoDup (map fst (combine (UFEt_rxn_list m) fluxes))).
  { rewrite map_fst_combine by exact Hlen. now apply unique_ids_filter. }
  rewrite (of_pairs_distinct _ Hnd). split; [reflexivity|]. split.
  - unfold PyDict.keys. now apply map_fst_combine.
  - intros i id v Hid Hv. apply get_distinct; [exact Hnd|].
    clear Hnd Hu. revert i fluxes Hlen Hid Hv.
    induction (UFEt_rxn_list m) as [|x xs IH]; intros [|i] [|y ys] Hlen Hid Hv;
      cbn in *; try discriminate.
    + injection Hid as ->. injection Hv as ->. now left.
    + right. eapply IH; [|exact Hid|exact Hv]. lia.
Qed.

(** X4: on a model with unique ids, the bounds dictionary has one entry
    per reaction, in the order of the model, and looking up a reaction
    of the model gives its bounds. *)
Theorem model_rxn_bounds_lists_model (m : Model) :
  unique_ids m ->
  model_rxn_bounds m = map (fun rxn => (rid rxn, bounds rxn)) (reactions m)
  /\ PyDict.keys (model_rxn_bounds m) = map rid (reactions m)
  /\ forall rxn,
       In rxn (reactions m) ->
       PyDict.get (model_rxn_bounds m) (rid rxn) = Some (bounds rxn).
Proof.
  intros Hu. unfold model_rxn_bounds.
  assert (Hnd : NoDup (map fst (map (fun rxn => (rid rxn, bounds rxn)) (reactions m)))).
  { rewrite map_map. exact Hu. }
  rewrite (of_pairs_distinct _ Hnd). split; [reflexivity|]. split.
  - unfold PyDict.keys. now rewrite map_map.
  - intros rxn Hin. apply get_distinct; [exact Hnd|].
    apply in_map_iff. now exists rxn.
Qed.

(* ------------------------------------------------------------------ *)
(** *** Further properties: Part 2 of [optimize_model] *)
(* ------------------------------------------------------------------ *)

Lemma ltb_irrefl (x : float) : PrimFloat.ltb x x = false.
Proof.
  rewrite ltb_spec. unfold SFltb, SFcompare.
  destruct (Prim2SF x) as [sg|sg| |sg m e]; try reflexivity;
    try (now destruct sg).
  destruct sg; rewrite Z.compare_refl, Pos.compare_cont_refl; reflexivity.
Qed.

Lemma in_set {A} (d : PyDict.dict A) k v k0 v0 :
  In (k, v) (PyDict.set d k0 v0) -> In (k, v) d \/ (k = k0 /\ v = v0).
Proof.
  induction d as [|[k1 v1] d IH]; cbn [PyDict.set In].
  - intros [H|[]]. injection H as <- <-. now right.
  - destruct (String.eqb k1 k0) eqn:E; cbn [In].
    + apply String.eqb_eq in E. subst k1.
      intros [H|H]; [injection H as <- <-; now right|left; now right].
    + intros [H|H]; [left; now left|].
      destruct (IH H) as [H'|H']; [left; now right|now right].
Qed.

(** What a minimize turn that completes has done. *)
Lemma minimize_IEX_body_Ok parallel rxn_id d st d' st' :
  minimize_IEX_body parallel rxn_id d st = (Ok d', st') ->
  (contains "IEX" rxn_id = false /\ d' = d /\ st' = st)
  \/ (contains "IEX" rxn_id = true
      /\ exists v,
          lp_solve (solved_for (model st) Minimize rxn_id) = Ok v
          /\ d' = PyDict.set d rxn_id v
          /\ model st' = with_objective (model st) (Some rxn_id)
          /\ solves (world st')
             = (solves (world st) ++ [solved_for (model st) Minimize rxn_id])%list).
Proof.
  unfold minimize_IEX_body. destruct (contains "IEX" rxn_id); intros H.
  - right. split; [reflexivity|].
    bound H rxn s Hr. apply reaction_by_id_Ok in Hr. destruct Hr as [-> Hr].
    pose proof (get_by_id_rid _ _ _ Hr) as Hid.
    bound H u s1 Ho. destruct u.
    unfold set_objective, bind, get_model, put_model in Ho. injection Ho as <-.
    bound H v s2 Hv. unfold optimize in Hv. cbn [model world] in Hv.
    injection Hv as Hv <-. rewrite Hid in Hv.
    past_printing H s3 Same. destruct Same as (M3 & F3 & S3).
    injection H as <- <-. cbn [model world files solves] in M3, F3, S3.
    rewrite Hid in M3, S3. exists v. unfold solved_for.
    repeat split; congruence.
  - left. injection H as <- <-. now repeat split.
Qed.

Lemma minimize_IEX_loop_Ok parallel rxns :
  forall d st d' st',
    for_each rxns (minimize_IEX_body parallel) d st = (Ok d', st') ->
    solves (world st')
    = (solves (world st)
       ++ map (solved_for (model st) Minimize)
            (filter (fun k => contains "IEX" k) rxns))%list
    /\ forall k v,
         In (k, v) d' ->
         In (k, v) d
         \/ (In k rxns /\ contains "IEX" k = true
             /\ lp_solve (solved_for (model st) Minimize k) = Ok v).
Proof.
  induction rxns as [|r rxns IH]; intros d st d' st' H; cbn [for_each] in H.
  - injection H as <- <-. cbn [filter map]. rewrite app_nil_r. split; auto.
  - bound H d1 st1 Hbody. apply minimize_IEX_body_Ok in Hbody.
    destruct (IH _ _ _ _ H) as [Hs Hk]. cbn [filter].
    destruct Hbody as [(EI & -> & ->)|(EI & v & Hv & -> & M1 & S1)]; rewrite EI.
    + split; [exact Hs|]. intros k v Hin.
      destruct (Hk k v Hin) as [Hd|(Hr & HI & Hv)]; [now left|].
      right. repeat split; trivial. now right.
    + rewrite M1 in Hs, Hk. split.
      * cbn [map]. rewrite Hs, S1, <- app_assoc. reflexivity.
      * intros k w Hin.
        destruct (Hk k w Hin) as [Hd|(Hr & HI & Hw)].
        -- apply in_set in Hd. destruct Hd as [Hd|[-> ->]]; [now left|].
           right. repeat split; trivial. now left.
        -- right. repeat split; trivial. now right.
Qed.

Lemma pinned_for_same_but_objective (m1 m2 : Model) rxn_id x k :
  same_but_objective m1 m2 -> pinned_for m1 rxn_id x k = pinned_for m2 rxn_id x k.
Proof.
  intros H. apply same_but_objective_fields in H.
  destruct H as (N & R & Mt & D & C & S).
  unfold pinned_for, solved_for, with_direction, with_objective, with_reactions.
  cbn [name reactions metabolites objective direction constraints solver].
  now rewrite N, R, Mt, C, S.
Qed.

(** What Part 2 has done when it completes: every solve it made was a
    minimize of an IEX reaction on the model it was given with one
    transporter, of non-zero maximum, pinned to that maximum; and every
    entry of the dictionary is the solver's answer to such a solve. *)
Lemma propagate_and_minimize_Ok parallel rxn_list fluxes st d st' :
  propagate_and_minimize parallel rxn_list fluxes st = (Ok d, st') ->
  same_but_objective (model st) (model st')
  /\ (exists new,
        solves (world st') = (solves (world st) ++ new)%list
        /\ Forall (fun s =>
                     exists i rxn_id x k,
                       nth_error rxn_list i = Some rxn_id
                       /\ nth_error fluxes i = Some (Some x)
                       /\ ne_zero (Some x) = true
                       /\ contains "IEX" k = true
                       /\ s = pinned_for (model st) rxn_id x k) new)
  /\ (forall k v,
        In (k, v) d ->
        exists i rxn_id x,
          nth_error rxn_list i = Some rxn_id
          /\ nth_error fluxes i = Some (Some x)
          /\ ne_zero (Some x) = true
          /\ contains "IEX" k = true
          /\ lp_solve (pinned_for (model st) rxn_id x k) = Ok v).
Proof.
  unfold propagate_and_minimize. intros H.
  bound H acc' s Hloop. injection H as <- <-.
  pose (Q := fun (s0 : Model) =>
               exists i rxn_id x k,
                 nth_error rxn_list i = Some rxn_id
                 /\ nth_error fluxes i = Some (Some x)
                 /\ ne_zero (Some x) = true
                 /\ contains "IEX" k = true
                 /\ s0 = pinned_for (model st) rxn_id x k).
  pose (R := fun (k : string) (v : option float) =>
               exists i rxn_id x,
                 nth_error rxn_list i = Some rxn_id
                 /\ nth_error fluxes i = Some (Some x)
                 /\ ne_zero (Some x) = true
                 /\ contains "IEX" k = true
                 /\ lp_solve (pinned_for (model st) rxn_id x k) = Ok v).
  pose (P := fun (acc : nat * PyDict.dict (option float)) (s0 : State) =>
               same_but_objective (model st) (model s0)
               /\ (exists new,
                     solves (world s0) = (solves (world st) ++ new)%list
                     /\ Forall Q new)
               /\ forall k v, In (k, v) (snd acc) -> R k v).
  assert (HP : P acc' s).
  { apply (for_each_invariant P _ _) with (a := (0, [])) (st := st)
      (a' := acc') (st' := s) in Hloop; trivial.
    - intros i a t a' t' _ (Hobj & (new & Hnew & HQ) & HR) Hbody. split; [|split].
      + apply propagate_body_restores in Hbody. destruct Hbody as [Hb _].
        unfold same_but_objective in *. congruence.
      + apply propagate_body_Ok in Hbody.
        destruct Hbody as (t1 & f & (M1 & _ & S1) & Hfi
                           & [(_ & _ & _ & _ & S2)|(Hnz & Hb)]).
        * exists new. split; [congruence|exact HQ].
        * destruct Hb as (rxn_id & rxn & x & met & t3 & Hid & _ & -> & _ & Hin & ->).
          apply minimize_IEX_loop_Ok in Hin. destruct Hin as [Hs _].
          cbn [bounds_stored model world] in Hs |- *.
          exists (new ++ map (pinned_for (model st) rxn_id x)
                          (filter (fun k => contains "IEX" k) (met_reactions met)))%list.
          split.
          -- rewrite Hs, <- S1, Hnew, <- app_assoc. f_equal. f_equal.
             apply map_ext. intros k.
             rewrite <- M1. symmetry. now apply pinned_for_same_but_objective.
          -- apply Forall_app. split; [exact HQ|].
             apply Forall_forall. intros s0 Hs0. apply in_map_iff in Hs0.
             destruct Hs0 as (k & <- & Hk). apply filter_In in Hk.
             exists i, rxn_id, x, k. now repeat split.
      + apply propagate_body_Ok in Hbody.
        destruct Hbody as (t1 & f & (M1 & _ & S1) & Hfi
                           & [(_ & -> & _)|(Hnz & Hb)]); [exact HR|].
        destruct Hb as (rxn_id & rxn & x & met & t3 & Hid & _ & -> & _ & Hin & ->).
        apply minimize_IEX_loop_Ok in Hin. destruct Hin as [_ Hk].
        intros k v Hkv. destruct (Hk k v Hkv) as [Hold|(_ & HI & Hv)];
          [now apply HR|].
        exists i, rxn_id, x. repeat split; trivial.
        rewrite (pinned_for_same_but_objective _ _ rxn_id x k Hobj), M1.
        exact Hv.
    - split; [reflexivity|]. split; [|intros k v []].
      exists []. split; [now rewrite app_nil_r|constructor]. }
  destruct HP as (Hobj & Hlog & Hval). now repeat split.
Qed.

(** X5: every solve Part 2 makes, when it completes, is a minimize of an
    IEX reaction on the model the loop was given with exactly one
    transporter pinned, the one being processed, to its non-zero
    maximum: no other bound differs from the bounds the loop began with,
    whatever was processed before. *)
Theorem propagate_solves_with_one_pin parallel rxn_list fluxes st d st' :
  propagate_and_minimize parallel rxn_list fluxes st = (Ok d, st') ->
  exists new,
    solves (world st') = (solves (world st) ++ new)%list
    /\ Forall (fun s =>
                 exists i rxn_id x k,
                   nth_error rxn_list i = Some rxn_id
                   /\ nth_error fluxes i = Some (Some x)
                   /\ ne_zero (Some x) = true
                   /\ contains "IEX" k = true
                   /\ s = pinned_for (model st) rxn_id x k
                   /\ direction s = Minimize
                   /\ objective s = Some k
                   /\ reactions s
                      = store_bounds (reactions (model st)) rxn_id x x
                   /\ constraints s = constraints (model st)) new.
Proof.
  intros H. apply propagate_and_minimize_Ok in H.
  destruct H as (_ & (new & Hnew & HQ) & _).
  exists new. split; [exact Hnew|].
  eapply Forall_impl; [|exact HQ].
  intros s (i & rxn_id & x & k & H1 & H2 & H3 & H4 & ->).
  exists i, rxn_id, x, k. now repeat split.
Qed.

(** X6: every entry of the minimized-flux dictionary of a completed
    Part 2 is the solver's answer to minimizing that IEX reaction with a
    transporter of non-zero maximum pinned to that maximum. *)
Theorem minimized_fluxes_are_pinned_minima parallel rxn_list fluxes st d st' :
  propagate_and_minimize parallel rxn_list fluxes st = (Ok d, st') ->
  forall k v,
    In (k, v) d ->
    exists i rxn_id x,
      nth_error rxn_list i = Some rxn_id
      /\ nth_error fluxes i = Some (Some x)
      /\ ne_zero (Some x) = true
      /\ contains "IEX" k = true
      /\ lp_solve (pinned_for (model st) rxn_id x k) = Ok v.
Proof.
  intros H. apply propagate_and_minimize_Ok in H. apply H.
Qed.

Lemma get_by_id_store rs id r l u :
  get_by_id rs id = Some r ->
  get_by_id (store_bounds rs id l u) id = Some (mkReaction (rid r) l u).
Proof.
  induction rs as [|r0 rs IH]; cbn [get_by_id store_bounds]; [discriminate|].
  destruct (String.eqb (rid r0) id) eqn:E; intros H.
  - injection H as ->. cbn [get_by_id rid]. now rewrite E.
  - cbn [get_by_id]. rewrite E. now apply IH.
Qed.

(** X7: a turn of Part 2 whose transporter has a non-zero maximum but
    whose metabolite is not in the model raises the [KeyError] of the
    metabolite lookup after the pin and before the restore: the run
    aborts there with the transporter left at bounds [(x, x)]. *)
Theorem missing_metabolite_leaves_pin parallel rxn_list fluxes counter_max i acc
  st rxn_id rxn x :
  nth_error fluxes i = Some (Some x) ->
  ne_zero (Some x) = true ->
  nth_error rxn_list i = Some rxn_id ->
  get_by_id (reactions (model st)) rxn_id = Some rxn ->
  get_metabolite (metabolites (model st)) (metabolite_of rxn_id) = None ->
  exists st',
    propagate_body parallel rxn_list fluxes counter_max i acc st
    = (Raise (KeyError (metabolite_of rxn_id)), st')
    /\ same_but_console (bounds_stored st rxn_id x x) st'
    /\ get_by_id (reactions (model st')) rxn_id = Some (mkReaction rxn_id x x).
Proof.
  intros Hf Hnz Hid Hr Hm. unfold propagate_body.
  match goal with
  | |- exists _, bind ?c (fun _ => ?k) st = _ /\ _ =>
      destruct (only_prints_then c k st ltac:(auto with prints))
        as (st1 & (M1 & F1 & S1) & ->)
  end.
  unfold list_get at 1. rewrite Hf.
  rewrite (bind_step _ _ _ (Some x) st1 eq_refl), Hnz.
  unfold list_get at 1. rewrite Hid.
  rewrite (bind_step _ _ _ rxn_id st1 eq_refl).
  rewrite M1 in Hr, Hm.
  assert (Er : reaction_by_id rxn_id st1 = (Ok rxn, st1)).
  { cbv [reaction_by_id bind get_model]. now rewrite Hr. }
  rewrite (bind_step _ _ _ _ _ Er).
  rewrite (bind_step _ _ _ _ _ (set_bounds_run rxn_id x x st1 rxn Hr (ltb_irrefl x))).
  assert (Em : metabolite_by_id (metabolite_of rxn_id) (bounds_stored st1 rxn_id x x)
               = (Raise (KeyError (metabolite_of rxn_id)),
                  bounds_stored st1 rxn_id x x)).
  { cbv [metabolite_by_id bind get_model].
    cbn [bounds_stored model with_reactions metabolites]. now rewrite Hm. }
  rewrite (bind_raise _ _ _ _ _ Em).
  exists (bounds_stored st1 rxn_id x x). split; [reflexivity|]. split.
  - unfold same_but_console, bounds_stored. cbn [model world].
    rewrite M1. repeat split; assumption.
  - cbn [bounds_stored model with_reactions reactions].
    rewrite (get_by_id_store _ _ _ x x Hr). now rewrite (get_by_id_rid _ _ _ Hr).
Qed.

(* ------------------------------------------------------------------ *)
(** *** Further properties: [optimize_model] as a whole *)
(* ------------------------------------------------------------------ *)

(** The files behind a step that writes none. *)
Lemma writes_no_file_at {A} (c : M A) st r st' :
  writes_no_file c -> c st = (r, st') -> files (world st') = files (world st).
Proof. intros W E. specialize (W st). now rewrite E in W. Qed.

Lemma model_rxn_bounds_same_but_objective (m1 m2 : Model) :
  same_but_objective m1 m2 -> model_rxn_bounds m1 = model_rxn_bounds m2.
Proof.
  intros H. apply same_but_objective_fields in H. destruct H as (_ & R & _).
  unfold model_rxn_bounds. now rewrite R.
Qed.

Lemma same_but_objective_trans (m1 m2 m3 : Model) :
  same_but_objective m1 m2 -> same_but_objective m2 m3 ->
  same_but_objective m1 m3.
Proof. unfold same_but_objective. congruence. Qed.

Lemma same_but_objective_sym (m1 m2 : Model) :
  same_but_objective m1 m2 -> same_but_objective m2 m1.
Proof. unfold same_but_objective. congruence. Qed.

Lemma with_objective_same_but_objective (m1 m2 : Model) o :
  same_but_objective m1 m2 -> with_objective m1 o = with_objective m2 o.
Proof.
  intros H. apply same_but_objective_fields in H.
  destruct H as (N & R & Mt & D & C & S).
  unfold with_objective. now rewrite N, R, Mt, D, C, S.
Qed.

Lemma UFEt_rxn_list_same_but_objective (m1 m2 : Model) :
  same_but_objective m1 m2 -> UFEt_rxn_list m1 = UFEt_rxn_list m2.
Proof.
  intros H. apply same_but_objective_fields in H. destruct H as (_ & R & _).
  unfold UFEt_rxn_list. now rewrite R.
Qed.

(** What [optimize_model] has done when its body completes: the two
    preparing steps, Part 1 on the model they left, Part 2 on the fluxes
    of Part 1, the one write and the value. *)
Lemma optimize_model_body_run model_input output_path add_1ba silent
  return_outputs parallel st r st' :
  optimize_model_body model_input output_path add_1ba silent return_outputs
    parallel st = (Ok r, st') ->
  exists s0 s1 fluxes s4 mind s5,
    set_default_bounds "FEX" silent st = (Ok tt, s0)
    /\ when add_1ba add_diet_1ba s0 = (Ok tt, s1)
    /\ Forall2 (fun id v => lp_solve (with_objective (model s1) (Some id)) = Ok v)
         (UFEt_rxn_list (model s1)) fluxes
    /\ same_but_objective (model s1) (model s4)
    /\ propagate_and_minimize parallel (UFEt_rxn_list (model s1)) fluxes s4
       = (Ok mind, s5)
    /\ (forall k v,
          In (k, v) mind ->
          exists i rxn_id x,
            nth_error (UFEt_rxn_list (model s1)) i = Some rxn_id
            /\ nth_error fluxes i = Some (Some x)
            /\ ne_zero (Some x) = true
            /\ contains "IEX" k = true
            /\ lp_solve (pinned_for (model s1) rxn_id x k) = Ok v)
    /\ same_but_objective (model s1) (model st')
    /\ files (world st')
       = PyDict.set (files (world s1))
           (output_path ++ "/" ++ name (model s1) ++ "_opt_flux.txt")
           (flux_lines mind)
    /\ r = (if return_outputs
            then Some (PyDict.of_pairs (combine (UFEt_rxn_list (model s1)) fluxes),
                       mind, model_rxn_bounds (model s1))
            else None).
Proof.
  unfold optimize_model_body. intros H.
  bound H u0 s0 Hdefault. destruct u0. bound H u1 s1 Hdiet. destruct u1.
  past_printing H s2 Same2. destruct Same2 as (M2 & F2 & _).
  bound H m s Hm. apply get_model_Ok in Hm. destruct Hm as [-> ->].
  bound H acc s3 Hpart1.
  apply maximize_loop_Ok in Hpart1.
  destruct Hpart1 as (_ & (vs & Hvs & Hall) & _ & Hobj1 & F3).
  cbn [snd app] in Hvs.
  past_printing H s4 Same4. destruct Same4 as (M4 & F4 & _).
  bound H mind s5 Hpart2.
  pose proof (writes_no_file_at _ _ _ _
                (writes_no_file_propagate_and_minimize _ _ _) Hpart2) as F5.
  pose proof Hpart2 as Hrun2.
  apply propagate_and_minimize_Ok in Hpart2.
  destruct Hpart2 as (Hobj2 & _ & Hent).
  bound H m s Hm. apply get_model_Ok in Hm. destruct Hm as [-> ->].
  bound H u2 s6 Hwrite.
  unfold write_file in Hwrite. injection Hwrite as <- <-.
  past_printing H s7 Same7. destruct Same7 as (M7 & F7 & _).
  cbn [model world files] in M7, F7.
  injection H as <- <-.
  assert (Hobj4 : same_but_objective (model s1) (model s4)).
  { rewrite M2, <- M4. exact Hobj1. }
  assert (Hobj : same_but_objective (model s1) (model s7)).
  { rewrite <- M7. eapply same_but_objective_trans; [exact Hobj4|exact Hobj2]. }
  assert (N : name (model s5) = name (model s1)).
  { pose proof (same_but_objective_fields _ _ Hobj) as (N & _). congruence. }
  assert (F : files (world s5) = files (world s1)) by congruence.
  rewrite Hvs, <- M2 in Hrun2, Hent. rewrite <- M2 in Hall.
  exists s0, s1, vs, s4, mind, s5.
  split; [exact Hdefault|]. split; [exact Hdiet|]. split; [exact Hall|].
  split; [exact Hobj4|]. split; [exact Hrun2|].
  split.
  { intros k v Hin. destruct (Hent k v Hin) as (i & rxn_id & x & H1 & H2 & H3 & H4 & H5).
    exists i, rxn_id, x.
    rewrite (pinned_for_same_but_objective _ _ rxn_id x k Hobj4).
    repeat (split; [assumption|]). assumption. }
  split; [exact Hobj|].
  split; [now rewrite <- F7, N, F|].
  rewrite Hvs, <- M2, M7.
  now rewrite <- (model_rxn_bounds_same_but_objective _ _ Hobj).
Qed.

(** X8: a call of [optimize_model] whose body completes leaves the model
    as the default-bounds setter and the diet override left it, but for
    the objective: the bounds changed in Part 2 are all restored; it has
    written one file, the output file, on top of the files found after
    those two steps; and the dictionaries it returns are the maximized
    fluxes of the transporters, one per transporter and each the
    solver's answer for that transporter as objective of the model those
    two steps left, the minimized fluxes that Part 2 computed from these
    maxima and that the file holds, and the bounds as those two steps
    left them. *)
Theorem optimize_model_body_keeps_bounds model_input output_path add_1ba silent
  return_outputs parallel st r st' :
  optimize_model_body model_input output_path add_1ba silent return_outputs
    parallel st = (Ok r, st') ->
  exists s0 s1 fluxes mind,
    set_default_bounds "FEX" silent st = (Ok tt, s0)
    /\ when add_1ba add_diet_1ba s0 = (Ok tt, s1)
    /\ same_but_objective (model s1) (model st')
    /\ files (world st')
       = PyDict.set (files (world s1))
           (output_path ++ "/" ++ name (model s1) ++ "_opt_flux.txt")
           (flux_lines mind)
    /\ List.length fluxes = List.length (UFEt_rxn_list (model s1))
    /\ r = (if return_outputs
            then Some (PyDict.of_pairs (combine (UFEt_rxn_list (model s1)) fluxes),
                       mind, model_rxn_bounds (model s1))
            else None)
    /\ Forall2 (fun id v => lp_solve (with_objective (model s1) (Some id)) = Ok v)
         (UFEt_rxn_list (model s1)) fluxes
    /\ exists s4 s5,
         same_but_objective (model s1) (model s4)
         /\ propagate_and_minimize parallel (UFEt_rxn_list (model s1)) fluxes s4
            = (Ok mind, s5).
Proof.
  intros H. apply optimize_model_body_run in H.
  destruct H as (s0 & s1 & fluxes & s4 & mind & s5
                 & Hdefault & Hdiet & Hall & Hobj4 & Hrun2 & _ & Hobj & F & Hr).
  exists s0, s1, fluxes, mind.
  split; [exact Hdefault|]. split; [exact Hdiet|]. split; [exact Hobj|].
  split; [exact F|].
  split; [symmetry; eapply Forall2_length; exact Hall|].
  split; [exact Hr|]. split; [exact Hall|].
  exists s4, s5. split; [exact Hobj4|exact Hrun2].
Qed.

(** C5 (amended): a call of [optimize_model] that completes returns the
    three dictionaries when [return_outputs] is set, and [None] when it
    is not.  When they are returned, the first is the dictionary of the
    transporters of the model with their maximized fluxes, each the
    solver's answer for that transporter as objective; the second is the
    dictionary Part 2 computed from these maxima, each entry the
    solver's minimum for an IEX reaction with a transporter pinned to
    its non-zero maximum, and it is the one the output file was written
    from; the third is the bounds dictionary
    read off the model as the call leaves it. *)
Theorem optimize_model_returns model_input output_path add_1ba silent
  return_outputs parallel w r :
  result (optimize_model model_input output_path add_1ba silent
            return_outputs parallel w) = Ok r ->
  (return_outputs = false -> r = None)
  /\ (return_outputs = true ->
      exists fluxes mind m',
        r = Some (PyDict.of_pairs (combine (UFEt_rxn_list m') fluxes), mind,
                  model_rxn_bounds m')
        /\ final_model (optimize_model model_input output_path add_1ba silent
                          return_outputs parallel w) = Some m'
        /\ PyDict.get
             (files (final_world
                       (optimize_model model_input output_path add_1ba silent
                          return_outputs parallel w)))
             (output_path ++ "/" ++ name m' ++ "_opt_flux.txt")
           = Some (flux_lines mind)
        /\ Forall2 (fun id v => lp_solve (with_objective m' (Some id)) = Ok v)
             (UFEt_rxn_list m') fluxes
        /\ (exists s4 s5,
               same_but_objective m' (model s4)
               /\ propagate_and_minimize parallel (UFEt_rxn_list m') fluxes s4
                  = (Ok mind, s5))
        /\ forall k v,
             In (k, v) mind ->
             exists i rxn_id x,
               nth_error (UFEt_rxn_list m') i = Some rxn_id
               /\ nth_error fluxes i = Some (Some x)
               /\ ne_zero (Some x) = true
               /\ contains "IEX" k = true
               /\ lp_solve (pinned_for m' rxn_id x k) = Ok v).
Proof.
  unfold optimize_model, run_on.
  destruct (resolve_input model_input (Some true)) as [m|e]; [|discriminate].
  match goal with
  | |- context [optimize_model_body ?a ?b ?c ?d ?e ?f ?s] =>
      destruct (optimize_model_body a b c d e f s) as [r0 st'] eqn:E
  end.
  cbn [result final_model final_world]. intros ->.
  apply optimize_model_body_run in E.
  destruct E as (s0 & s1 & fluxes & s4 & mind & s5
                 & _ & _ & Hall & Hobj4 & Hrun2 & Hent & Hobj & F & ->).
  split; intros ->; [reflexivity|].
  pose proof (same_but_objective_fields _ _ Hobj) as (N & _).
  rewrite (UFEt_rxn_list_same_but_objective _ _ Hobj) in Hall, Hrun2, Hent |- *.
  rewrite (model_rxn_bounds_same_but_objective _ _ Hobj).
  exists fluxes, mind, (model st').
  split; [reflexivity|]. split; [reflexivity|].
  split; [rewrite F, N; apply get_set_same|].
  split.
  - eapply Forall2_impl; [|exact Hall].
    intros id v Hv. cbn beta in Hv.
    now rewrite <- (with_objective_same_but_objective _ _ (Some id) Hobj).
  - split.
    + exists s4, s5. split; [|exact Hrun2].
      eapply same_but_objective_trans; [|exact Hobj4].
      now apply same_but_objective_sym.
    + intros k v Hin.
      destruct (Hent k v Hin) as (i & rxn_id & x & H1 & H2 & H3 & H4 & H5).
      exists i, rxn_id, x.
      rewrite <- (pinned_for_same_but_objective _ _ rxn_id x k Hobj).
      repeat (split; [assumption|]). assumption.
Qed.

(** X9: a call of [optimize_model] that raises after the default-bounds
    setter has returned has written no output file: the files are those
    the setter left. *)
Theorem optimize_model_body_abort_writes_nothing model_input output_path add_1ba
  silent return_outputs parallel st s0 e st' :
  set_default_bounds "FEX" silent st = (Ok tt, s0) ->
  optimize_model_body model_input output_path add_1ba silent return_outputs
    parallel st = (Raise e, st') ->
  files (world st') = files (world s0).
Proof.
  unfold optimize_model_body. intros Hdefault H.
  rewrite (bind_step _ _ _ _ _ Hdefault) in H.
  apply bind_Raise in H. destruct H as [H|(u1 & s1 & Hdiet & H)].
  { eapply writes_no_file_at; [|exact H].
    apply writes_no_file_when, writes_no_file_diet. }
  pose proof (writes_no_file_at _ _ _ _
                (writes_no_file_when _ _ writes_no_file_diet) Hdiet) as F1.
  past_printing H s2 Same2. destruct Same2 as (M2 & F2 & _).
  rewrite (bind_step get_model _ s2 (model s2) s2 eq_refl) in H.
  apply bind_Raise in H. destruct H as [H|(acc & s3 & Hpart1 & H)].
  { pose proof (writes_no_file_at _ _ _ _
                  (writes_no_file_for_each _ _
                     (writes_no_file_maximize_body _ _) _) H).
    congruence. }
  pose proof (writes_no_file_at _ _ _ _
                (writes_no_file_for_each _ _
                   (writes_no_file_maximize_body _ _) _) Hpart1) as F3.
  past_printing H s4 Same4. destruct Same4 as (M4 & F4 & _).
  apply bind_Raise in H. destruct H as [H|(mind & s5 & Hpart2 & H)].
  { pose proof (writes_no_file_at _ _ _ _
                  (writes_no_file_propagate_and_minimize _ _ _) H).
    congruence. }
  rewrite (bind_step get_model _ s5 (model s5) s5 eq_refl) in H.
  apply bind_Raise in H. destruct H as [H|(u2 & s6 & _ & H)]; [discriminate H|].
  past_printing H s7 Same7. discriminate H.
Qed.

(** X10: on a model that, once the default bounds and the diet override
    are applied, has no transporter, [optimize_model] solves nothing and
    completes: it returns two empty flux dictionaries with the bounds of
    the model, leaves the model as those two steps left it and writes an
    empty output file. *)
Theorem optimize_model_body_without_transporters model_input output_path add_1ba
  silent return_outputs parallel st s0 s1 :
  set_default_bounds "FEX" silent st = (Ok tt, s0) ->
  when add_1ba add_diet_1ba s0 = (Ok tt, s1) ->
  UFEt_rxn_list (model s1) = [] ->
  exists st',
    optimize_model_body model_input output_path add_1ba silent return_outputs
      parallel st
    = (Ok (if return_outputs
           then Some ([], [], model_rxn_bounds (model s1))
           else None), st')
    /\ model st' = model s1
    /\ solves (world st') = solves (world s1)
    /\ files (world st')
       = PyDict.set (files (world s1))
           (output_path ++ "/" ++ name (model s1) ++ "_opt_flux.txt") "".
Proof.
  intros Hdefault Hdiet Hnone. unfold optimize_model_body.
  rewrite (bind_step _ _ _ _ _ Hdefault), (bind_step _ _ _ _ _ Hdiet).
  match goal with
  | |- exists _, bind ?c (fun _ => ?k) s1 = _ /\ _ =>
      destruct (only_prints_then c k s1 ltac:(auto with prints))
        as (s2 & (M2 & F2 & S2) & ->)
  end.
  rewrite (bind_step get_model _ s2 (model s2) s2 eq_refl).
  rewrite <- M2, Hnone. cbn [for_each List.length seq].
  rewrite (bind_step (ret (0, [])) _ s2 (0, []) s2 eq_refl).
  match goal with
  | |- exists _, bind ?c (fun _ => ?k) s2 = _ /\ _ =>
      destruct (only_prints_then c k s2 ltac:(auto with prints))
        as (s4 & (M4 & F4 & S4) & ->)
  end.
  rewrite (bind_step (propagate_and_minimize parallel [] (snd (0, [])))
             _ s4 [] s4 eq_refl).
  rewrite (bind_step get_model _ s4 (model s4) s4 eq_refl).
  rewrite (bind_step (write_file _ _) _ s4 tt _ eq_refl).
  match goal with
  | |- exists _, bind ?c (fun _ => ?k) ?s = _ /\ _ =>
      destruct (only_prints_then c k s ltac:(auto with prints))
        as (s7 & (M7 & F7 & S7) & ->)
  end.
  cbn [model world files solves] in M7, F7, S7.
  exists s7. split; [|repeat split].
  - unfold ret. cbn [combine snd PyDict.of_pairs fold_left].
    assert (Hm : model s4 = model s1) by congruence. now rewrite Hm.
  - congruence.
  - congruence.
  - rewrite <- F7. assert (Hm : model s4 = model s1) by congruence.
    rewrite Hm. f_equal. congruence.
Qed.

(* ------------------------------------------------------------------ *)
(** *** Further properties: the diet override, again *)
(* ------------------------------------------------------------------ *)

Lemma diet_1ba_reaction_again rxn :
  diet_1ba_reaction (diet_1ba_reaction rxn) = diet_1ba_reaction rxn.
Proof.
  unfold diet_1ba_reaction at 2 3.
  destruct (diet_1ba_applies rxn) eqn:E; [|unfold diet_1ba_reaction; now rewrite E].
  unfold diet_1ba_reaction, diet_1ba_applies in *. cbn [rid lower_bound].
  apply andb_true_iff in E. destruct E as [E Hbile].
  apply andb_true_iff in E. destruct E as [Hdiet _].
  rewrite Hdiet, Hbile. reflexivity.
Qed.

(** The diet loop run forward on a model with unique ids. *)
Lemma add_diet_1ba_run st :
  unique_ids (model st) ->
  add_diet_1ba st
  = (Ok tt,
     mkState (with_reactions (model st)
                (map diet_1ba_reaction (reactions (model st))))
             (world st)).
Proof.
  intros Hu. destruct st as [m w]. cbn [model world] in *.
  unfold add_diet_1ba. cbv [bind get_model]. cbn [model].
  pose proof (diet_1ba_loop_run (reactions m) [] m w Hu) as H.
  cbn [app List.length] in H.
  replace (with_reactions m (reactions m)) with m in H by (now destruct m).
  exact H.
Qed.

(** X11: on a model with unique ids, running the diet override a second
    time changes nothing more: a reaction it has forced to
    [(-1000.0, 0.0)] is forced to the same bounds again, and no other
    reaction comes to qualify; the override keeps the ids of the model
    and their order. *)
Theorem diet_1ba_twice st :
  unique_ids (model st) ->
  (add_diet_1ba ;; add_diet_1ba) st = add_diet_1ba st
  /\ map rid (reactions (model (snd (add_diet_1ba st))))
     = map rid (reactions (model st)).
Proof.
  intros Hu.
  assert (Hids : map rid (map diet_1ba_reaction (reactions (model st)))
                 = map rid (reactions (model st))).
  { rewrite map_map. apply map_ext. intros r. apply diet_1ba_reaction_rid. }
  split.
  - rewrite (bind_step _ _ _ _ _ (add_diet_1ba_run st Hu)).
    rewrite !add_diet_1ba_run; trivial.
    + cbn [model world with_reactions reactions].
      rewrite map_map.
      erewrite (map_ext (fun x => diet_1ba_reaction (diet_1ba_reaction x)));
        [reflexivity|apply diet_1ba_reaction_again].
    + unfold unique_ids. cbn [model with_reactions reactions]. now rewrite Hids.
  - rewrite add_diet_1ba_run by exact Hu. cbn [snd model with_reactions reactions].
    exact Hids.
Qed.

(* ------------------------------------------------------------------ *)
(** *** Further properties: the sweeps *)
(* ------------------------------------------------------------------ *)

Lemma fecal_exchange_ids_in_model (m : Model) id :
  In id (fecal_exchange_ids m) -> exists r, get_by_id (reactions m) id = Some r.
Proof.
  unfold fecal_exchange_ids. intros H. apply in_map_iff in H.
  destruct H as (r & <- & Hin). apply filter_In in Hin.
  apply get_by_id_In. apply Hin.
Qed.

Lemma sweep_loop_Raise sense label verbose parallel ids :
  forall d st e st',
    (forall id, In id ids -> exists r, get_by_id (reactions (model st)) id = Some r) ->
    for_each ids (sweep_body sense label verbose parallel) d st = (Raise e, st') ->
    exists id, In id ids /\ lp_solve (solved_for (model st) sense id) = Raise e.
Proof.
  induction ids as [|id ids IH]; intros d st e st' Hin H; cbn [for_each] in H.
  - discriminate.
  - destruct (Hin id (or_introl eq_refl)) as [r Hr].
    pose proof (get_by_id_rid _ _ _ Hr) as Hid.
    destruct (sweep_body_run sense label verbose parallel id d st r Hr)
      as (st1 & (M1 & _) & E).
    rewrite Hid in E, M1. cbn [model] in M1.
    change (with_direction (with_objective (model st) (Some id)) sense)
      with (solved_for (model st) sense id) in E.
    apply bind_Raise in H. destruct H as [H|(d1 & s1 & Hb & H)].
    + rewrite H in E. exists id. split; [now left|].
      destruct (lp_solve (solved_for (model st) sense id)); [discriminate|].
      now injection E as -> _.
    + rewrite Hb in E.
      destruct (lp_solve (solved_for (model st) sense id)); [|discriminate].
      injection E as _ ->.
      assert (Hin' : forall id',
                 In id' ids ->
                 exists r, get_by_id (reactions (model st1)) id' = Some r).
      { intros id' Hid'. rewrite <- M1. cbn [with_objective reactions].
        apply Hin. now right. }
      destruct (IH _ _ _ _ Hin' H) as (id' & Hid' & Hs).
      rewrite <- M1 in Hs. exists id'. split; [now right|exact Hs].
Qed.

(** X12: the sweeps raise nothing of their own: when they do not
    complete, the exception is one the solver raised on the model with a
    fecal exchange reaction as its objective, in one of the two
    directions; and however they end they have written no file. *)
Theorem sweeps_raise_only_solver verbose parallel st :
  files (world (snd (sweeps verbose parallel st))) = files (world st)
  /\ forall e st',
       sweeps verbose parallel st = (Raise e, st') ->
       exists id sense,
         In id (fecal_exchange_ids (model st))
         /\ lp_solve (solved_for (model st) sense id) = Raise e.
Proof.
  split; [apply sweeps_frame|].
  unfold sweeps, minimize_sweep, maximize_sweep. intros e st' H.
  apply bind_Raise in H. destruct H as [H|(mins & s2 & Hmin & H)].
  - past_printing H s1 Same1. destruct Same1 as (M1 & _).
    unfold bind at 1, get_model in H. rewrite <- M1 in H.
    apply sweep_loop_Raise in H;
      [|intros id Hid; rewrite <- M1; now apply fecal_exchange_ids_in_model].
    destruct H as (id & Hin & Hs). rewrite <- M1 in Hs. now exists id, Minimize.
  - past_printing Hmin s1 Same1. destruct Same1 as (M1 & _).
    unfold bind at 1, get_model in Hmin. rewrite <- M1 in Hmin.
    apply sweep_loop_Ok in Hmin. destruct Hmin as (Hobj & _).
    rewrite <- M1 in Hobj.
    apply bind_Raise in H. destruct H as [H|(maxs & s4 & _ & H)]; [|discriminate H].
    past_printing H s3 Same3. destruct Same3 as (M3 & _).
    unfold bind at 1, get_model in H. rewrite <- M3 in H.
    apply sweep_loop_Raise in H;
      [|intros id Hid; rewrite <- M3; now apply fecal_exchange_ids_in_model].
    destruct H as (id & Hin & Hs). rewrite <- M3 in Hs.
    pose proof (same_but_objective_fields _ _ Hobj) as (_ & R & _).
    exists id, Maximize. split.
    + unfold fecal_exchange_ids in *. now rewrite R.
    + rewrite <- Hs. unfold solved_for, with_direction.
      change (with_objective (model st) (Some id))
        with (with_objective (with_objective (model st) None) (Some id)).
      change (with_objective (model s2) (Some id))
        with (with_objective (with_objective (model s2) None) (Some id)).
      unfold same_but_objective in Hobj. now rewrite Hobj.
Qed.

Lemma sweep_loop_values sense label verbose parallel ids :
  forall d st d' st',
    for_each ids (sweep_body sense label verbose parallel) d st = (Ok d', st') ->
    forall k v,
      In (k, v) d' ->
      In (k, v) d
      \/ (In k ids /\ lp_solve (solved_for (model st) sense k) = Ok v).
Proof.
  induction ids as [|id ids IH]; intros d st d' st' H k v Hin; cbn [for_each] in H.
  - injection H as <- <-. now left.
  - bound H d1 st1 Hbody. apply sweep_body_Ok in Hbody.
    destruct Hbody as (rxn & w & _ & Hw & -> & M1 & _).
    destruct (IH _ _ _ _ H k v Hin) as [Hd|[Hk Hv]].
    + apply in_set in Hd. destruct Hd as [Hd|[-> ->]]; [now left|].
      right. split; [now left|exact Hw].
    + rewrite M1 in Hv. right. split; [now right|exact Hv].
Qed.

Lemma sweep_loop_model sense label verbose parallel ids :
  forall d st d' st',
    for_each ids (sweep_body sense label verbose parallel) d st = (Ok d', st') ->
    model st' = match rev ids with
                | [] => model st
                | id :: _ => with_objective (model st) (Some id)
                end.
Proof.
  induction ids as [|id ids IH]; intros d st d' st' H; cbn [for_each] in H.
  - now injection H as <- <-.
  - bound H d1 st1 Hbody. apply sweep_body_Ok in Hbody.
    destruct Hbody as (rxn & w & _ & _ & _ & M1 & _).
    rewrite (IH _ _ _ _ H), M1. cbn [rev].
    now destruct (rev ids).
Qed.

(** X13: the dictionaries of a completed pair of sweeps hold the
    solver's answers: every entry of the minimized one is the result of
    solving the model the sweeps were given with that fecal exchange
    reaction as objective in the minimize direction, and every entry of
    the maximized one the result of the same solve in the maximize
    direction. *)
Theorem sweep_values_are_solver_answers verbose parallel st mins maxs st' :
  sweeps verbose parallel st = (Ok (mins, maxs), st') ->
  (forall id v,
      In (id, v) mins ->
      In id (fecal_exchange_ids (model st))
      /\ lp_solve (solved_for (model st) Minimize id) = Ok v)
  /\ (forall id v,
         In (id, v) maxs ->
         In id (fecal_exchange_ids (model st))
         /\ lp_solve (solved_for (model st) Maximize id) = Ok v).
Proof.
  unfold sweeps, minimize_sweep, maximize_sweep. intros H.
  bound H mins' s2 Hmin.
  past_printing Hmin s1 Same1. destruct Same1 as (M1 & _).
  unfold bind at 1, get_model in Hmin. rewrite <- M1 in Hmin.
  pose proof (sweep_loop_values _ _ _ _ _ _ _ _ _ Hmin) as Vmin.
  rewrite <- M1 in Vmin.
  apply sweep_loop_Ok in Hmin. destruct Hmin as (Hobj & _).
  rewrite <- M1 in Hobj.
  bound H maxs' s4 Hmax.
  past_printing Hmax s3 Same3. destruct Same3 as (M3 & _).
  unfold bind at 1, get_model in Hmax. rewrite <- M3 in Hmax.
  pose proof (sweep_loop_values _ _ _ _ _ _ _ _ _ Hmax) as Vmax.
  rewrite <- M3 in Vmax.
  injection H as <- <- <-.
  pose proof (same_but_objective_fields _ _ Hobj) as (_ & R & _).
  split.
  - intros id v Hin. destruct (Vmin id v Hin) as [[]|Hv]. exact Hv.
  - intros id v Hin. destruct (Vmax id v Hin) as [[]|[Hid Hv]]. split.
    + unfold fecal_exchange_ids in *. now rewrite R.
    + rewrite <- Hv. unfold solved_for, with_direction.
      change (with_objective (model st) (Some id))
        with (with_objective (with_objective (model st) None) (Some id)).
      change (with_objective (model s2) (Some id))
        with (with_objective (with_objective (model s2) None) (Some id)).
      unfold same_but_objective in Hobj. now rewrite Hobj.
Qed.

Lemma sweep_without_reactions sense label (f : Model -> string) verbose parallel st :
  fecal_exchange_ids (model st) = [] ->
  exists st',
    (when (negb parallel) (m <- get_model ;; print (f m)) ;;
     m <- get_model ;;
     for_each (fecal_exchange_ids m) (sweep_body sense label verbose parallel) []) st
    = (Ok [], st')
    /\ same_but_console st st'.
Proof.
  intros Hnone.
  match goal with
  | |- exists _, bind ?c (fun _ => ?k) st = _ /\ _ =>
      destruct (only_prints_then c k st ltac:(auto with prints))
        as (s1 & Same1 & ->)
  end.
  exists s1. split; [|exact Same1].
  destruct Same1 as (M1 & _).
  unfold bind, get_model. now rewrite <- M1, Hnone.
Qed.

(** X14: the sweeps never restore the objective: when they complete on
    a model with fecal exchange reactions, the model is left with the
    last of them as its objective and is otherwise as it was given; on a
    model without any, they solve nothing, return two empty
    dictionaries and leave the state as it was, the console apart. *)
Theorem sweeps_leave_last_objective verbose parallel st :
  (forall opt st',
      sweeps verbose parallel st = (Ok opt, st') ->
      model st' = match rev (fecal_exchange_ids (model st)) with
                  | [] => model st
                  | id :: _ => with_objective (model st) (Some id)
                  end)
  /\ (fecal_exchange_ids (model st) = [] ->
      exists st',
        sweeps verbose parallel st = (Ok ([], []), st')
        /\ same_but_console st st').
Proof.
  split.
  - unfold sweeps, minimize_sweep, maximize_sweep. intros opt st' H.
    bound H mins' s2 Hmin.
    past_printing Hmin s1 Same1. destruct Same1 as (M1 & _).
    unfold bind at 1, get_model in Hmin. rewrite <- M1 in Hmin.
    pose proof (sweep_loop_model _ _ _ _ _ _ _ _ _ Hmin) as Mmin.
    rewrite <- M1 in Mmin.
    apply sweep_loop_Ok in Hmin. destruct Hmin as (Hobj & _).
    rewrite <- M1 in Hobj.
    bound H maxs' s4 Hmax.
    past_printing Hmax s3 Same3. destruct Same3 as (M3 & _).
    unfold bind at 1, get_model in Hmax. rewrite <- M3 in Hmax.
    pose proof (sweep_loop_model _ _ _ _ _ _ _ _ _ Hmax) as Mmax.
    injection H as <- <-.
    pose proof (same_but_objective_fields _ _ Hobj) as (_ & R & _).
    assert (Hids : fecal_exchange_ids (model s2) = fecal_exchange_ids (model st))
      by (unfold fecal_exchange_ids; now rewrite <- R).
    rewrite Hids, <- M3 in Mmax. rewrite Mmax, Mmin.
    now destruct (rev (fecal_exchange_ids (model st))).
  - intros Hnone.
    destruct (sweep_without_reactions Minimize "Minimized"
                (fun m => NL ++ "[Minimizing the model " ++ name m
                          ++ " for each metabolite]") verbose parallel st Hnone)
      as (s1 & E1 & Same1).
    assert (Hnone1 : fecal_exchange_ids (model s1) = [])
      by (destruct Same1 as (M1 & _); now rewrite <- M1).
    destruct (sweep_without_reactions Maximize "Maximized"
                (fun m => NL ++ "[Maximizing the model " ++ name m
                          ++ " for each metabolite]") verbose parallel s1 Hnone1)
      as (s2 & E2 & Same2).
    exists s2. split.
    + unfold sweeps, minimize_sweep, maximize_sweep.
      now rewrite (bind_step _ _ _ _ _ E1), (bind_step _ _ _ _ _ E2).
    + eapply same_but_console_trans; [exact Same1|exact Same2].
Qed.

(* ------------------------------------------------------------------ *)
(** *** Further properties: [optimize_model_mbx] as a whole *)
(* ------------------------------------------------------------------ *)

Lemma get_set_other {A} (d : PyDict.dict A) k v k' :
  k <> k' -> PyDict.get (PyDict.set d k v) k' = PyDict.get d k'.
Proof.
  intros Hne. induction d as [|[k0 v0] d IH]; cbn [PyDict.set PyDict.get].
  - destruct (String.eqb k k') eqn:E; [|reflexivity].
    apply String.eqb_eq in E. contradiction.
  - destruct (String.eqb k0 k) eqn:E; cbn [PyDict.get].
    + apply String.eqb_eq in E. subst k0.
      destruct (String.eqb k k') eqn:E'; [|reflexivity].
      apply String.eqb_eq in E'. contradiction.
    + now rewrite IH.
Qed.

Lemma append_cancel_l (a x y : string) : a ++ x = a ++ y -> x = y.
Proof.
  induction a as [|c a IH]; cbn [String.append]; [trivial|].
  intros H. injection H as H. now apply IH.
Qed.

(** What [optimize_model_mbx] has done when its body completes. *)
Lemma optimize_model_mbx_body_Ok model_input mbx_path output_path silent verbose
  return_outputs parallel st r st' :
  optimize_model_mbx_body model_input mbx_path output_path silent verbose
    return_outputs parallel st = (Ok r, st') ->
  exists data s2 s3 cs s4 mbx_constr s5 mins maxs s6,
    fetch_norm_sample_mbx_data mbx_path output_path silent
      (mkState (with_solver (model st) "gurobi") (world st)) = (Ok data, s2)
    /\ set_default_bounds "FEX" silent s2 = (Ok tt, s3)
    /\ fetch_mbx_constr_list data s3 = (Ok cs, s4)
    /\ solve_mbx_constraints cs parallel s4 = (Ok mbx_constr, s5)
    /\ sweeps verbose parallel
         (mkState (with_added_constraints (model s5) mbx_constr) (world s5))
       = (Ok (mins, maxs), s6)
    /\ model st' = model s6
    /\ solves (world st') = solves (world s6)
    /\ files (world st')
       = PyDict.set
           (PyDict.set (files (world s6))
              (output_path ++ "/" ++ name (model s6) ++ "_min_mbx_opt_flux.txt")
              (flux_lines mins))
           (output_path ++ "/" ++ name (model s6) ++ "_max_mbx_opt_flux.txt")
           (flux_lines maxs)
    /\ r = (if return_outputs then Some (mins, maxs) else None).
Proof.
  unfold optimize_model_mbx_body. intros H.
  bound H u1 s1 Hsolver.
  unfold set_solver, bind, get_model, put_model in Hsolver.
  injection Hsolver as <- <-.
  bound H data s2 Hdata. bound H u3 s3 Hdefault. destruct u3.
  bound H cs s4 Hcs. bound H mbx_constr s5 Hconstr.
  bound H u5 s5' Hadd.
  unfold add_cons_vars, bind, get_model, put_model in Hadd.
  injection Hadd as <- <-.
  bound H opt s6 Hsweeps. destruct opt as [mins maxs].
  bound H m s Hm. apply get_model_Ok in Hm. destruct Hm as [-> ->].
  bound H u6 s7 Hw1. unfold write_file in Hw1. injection Hw1 as <- <-.
  bound H u7 s8 Hw2. unfold write_file in Hw2. injection Hw2 as <- <-.
  cbn [model world console files solves fst snd] in H.
  past_printing H s9 Same9. destruct Same9 as (M9 & F9 & S9).
  cbn [model world files solves] in M9, F9, S9.
  injection H as <- <-.
  exists data, s2, s3, cs, s4, mbx_constr, s5, mins, maxs, s6.
  split; [exact Hdata|]. split; [exact Hdefault|]. split; [exact Hcs|].
  split; [exact Hconstr|]. split; [exact Hsweeps|].
  split; [now symmetry|]. split; [now symmetry|].
  split; [now rewrite <- F9|reflexivity].
Qed.

(** X15: in a completed run of [optimize_model_mbx] the constraints that
    [solve_mbx_constraints] returned are added to the model once, behind
    the constraints it had, after the helpers have run and before any
    solve of the sweeps: the model is left with them, and every solve of
    the sweeps, one per fecal exchange reaction and direction, is made
    on the model with them. *)
Theorem mbx_constraints_injected_before_sweeps model_input mbx_path output_path
  silent verbose return_outputs parallel st r st' :
  optimize_model_mbx_body model_input mbx_path output_path silent verbose
    return_outputs parallel st = (Ok r, st') ->
  exists data s2 s3 cs s4 mbx_constr s5,
    fetch_norm_sample_mbx_data mbx_path output_path silent
      (mkState (with_solver (model st) "gurobi") (world st)) = (Ok data, s2)
    /\ set_default_bounds "FEX" silent s2 = (Ok tt, s3)
    /\ fetch_mbx_constr_list data s3 = (Ok cs, s4)
    /\ solve_mbx_constraints cs parallel s4 = (Ok mbx_constr, s5)
    /\ same_but_objective (with_added_constraints (model s5) mbx_constr) (model st')
    /\ constraints (model st') = (constraints (model s5) ++ mbx_constr)%list
    /\ solves (world st')
       = (solves (world s5)
          ++ map (solved_for (with_added_constraints (model s5) mbx_constr) Minimize)
               (fecal_exchange_ids (model s5))
          ++ map (solved_for (with_added_constraints (model s5) mbx_constr) Maximize)
               (fecal_exchange_ids (model s5)))%list.
Proof.
  intros H. apply optimize_model_mbx_body_Ok in H.
  destruct H as (data & s2 & s3 & cs & s4 & mbx_constr & s5 & mins & maxs & s6
                 & H1 & H2 & H3 & H4 & Hsweeps & M & S & _).
  apply sweeps_Ok in Hsweeps. cbn [model world] in Hsweeps.
  destruct Hsweeps as (Hobj & _ & Hs & _).
  exists data, s2, s3, cs, s4, mbx_constr, s5.
  repeat split; trivial.
  - now rewrite M.
  - rewrite M. apply same_but_objective_fields in Hobj.
    destruct Hobj as (_ & _ & _ & _ & C & _). now rewrite <- C.
  - now rewrite S, Hs.
Qed.

(** X16: a completed run of [optimize_model_mbx] adds two files to the
    files the helpers left and touches no other: the minimized fluxes and
    then the maximized ones, named after the output path and the model.
    Both can be read afterwards, each holding the lines of its
    dictionary (the second write does not replace the first), the
    dictionaries being the two that the sweeps returned on the model
    with the constraints added; the function returns these two
    dictionaries when [return_outputs] is set and [None] when it is
    not. *)
Theorem mbx_writes_both_files model_input mbx_path output_path silent verbose
  return_outputs parallel st r st' :
  optimize_model_mbx_body model_input mbx_path output_path silent verbose
    return_outputs parallel st = (Ok r, st') ->
  exists data s2 s3 cs s4 mbx_constr s5 mins maxs,
    fetch_norm_sample_mbx_data mbx_path output_path silent
      (mkState (with_solver (model st) "gurobi") (world st)) = (Ok data, s2)
    /\ set_default_bounds "FEX" silent s2 = (Ok tt, s3)
    /\ fetch_mbx_constr_list data s3 = (Ok cs, s4)
    /\ solve_mbx_constraints cs parallel s4 = (Ok mbx_constr, s5)
    /\ (exists s6,
          sweeps verbose parallel
            (mkState (with_added_constraints (model s5) mbx_constr) (world s5))
          = (Ok (mins, maxs), s6))
    /\ r = (if return_outputs then Some (mins, maxs) else None)
    /\ files (world st')
       = PyDict.set
           (PyDict.set (files (world s5))
              (output_path ++ "/" ++ name (model s5) ++ "_min_mbx_opt_flux.txt")
              (flux_lines mins))
           (output_path ++ "/" ++ name (model s5) ++ "_max_mbx_opt_flux.txt")
           (flux_lines maxs)
    /\ PyDict.get (files (world st'))
         (output_path ++ "/" ++ name (model s5) ++ "_min_mbx_opt_flux.txt")
       = Some (flux_lines mins)
    /\ PyDict.get (files (world st'))
         (output_path ++ "/" ++ name (model s5) ++ "_max_mbx_opt_flux.txt")
       = Some (flux_lines maxs).
Proof.
  intros H. apply optimize_model_mbx_body_Ok in H.
  destruct H as (data & s2 & s3 & cs & s4 & mbx_constr & s5 & mins & maxs & s6
                 & H1 & H2 & H3 & H4 & Hsweeps & M & _ & F & Hr).
  pose proof (sweeps_frame verbose parallel
                (mkState (with_added_constraints (model s5) mbx_constr) (world s5)))
    as [_ F6].
  rewrite Hsweeps in F6. cbn [snd world] in F6.
  pose proof Hsweeps as Hrun.
  apply sweeps_Ok in Hsweeps. cbn [model world] in Hsweeps.
  destruct Hsweeps as (Hobj & _).
  apply same_but_objective_fields in Hobj. destruct Hobj as (N & _).
  cbn [with_added_constraints with_constraints name] in N.
  rewrite <- N, F6 in F.
  exists data, s2, s3, cs, s4, mbx_constr, s5, mins, maxs.
  split; [exact H1|]. split; [exact H2|]. split; [exact H3|].
  split; [exact H4|]. split; [now exists s6|].
  split; [exact Hr|]. split; [exact F|].
  rewrite F. split.
  - rewrite get_set_other; [apply get_set_same|].
    intros E.
    apply append_cancel_l in E. cbn [String.append] in E.
    apply (append_cancel_l "/") in E. apply append_cancel_l in E. discriminate E.
  - apply get_set_same.
Qed.

(* ------------------------------------------------------------------ *)
(** *** Further properties: the metabolite of a transporter *)
(* ------------------------------------------------------------------ *)




(* ------------------------------------------------------------------ *)
(** *** Further properties: a model that cannot be loaded *)
(* ------------------------------------------------------------------ *)

(** X18: when the input is a path and the loader raises, both workflows
    raise the loader's exception as it is: they have no model at hand,
    call none of the helpers, solve nothing and write no file.  The
    loader is asked for simple model names by [optimize_model] and is
    called with its default by [optimize_model_mbx]. *)
Theorem load_failure_propagates p e output_path mbx_path add_1ba silent verbose
  return_outputs parallel w :
  (load_model p (Some true) = Raise e ->
   let out := optimize_model (InPath p) output_path add_1ba silent
                return_outputs parallel w in
   result out = Raise e /\ final_model out = None
   /\ files (final_world out) = files w
   /\ solves (final_world out) = solves w)
  /\ (load_model p None = Raise e ->
      let out := optimize_model_mbx (InPath p) mbx_path output_path silent
                   verbose return_outputs parallel w in
      result out = Raise e /\ final_model out = None
      /\ files (final_world out) = files w
      /\ solves (final_world out) = solves w).
Proof.
  split; intros H; unfold optimize_model, optimize_model_mbx, run_on, resolve_input;
    rewrite H; cbn [result final_model final_world];
    destruct parallel; cbn [negb world_print files solves]; repeat split.
Qed.

End Workflows.

(* ================================================================== *)
(** ** The statements on the community model *)
(* ================================================================== *)

Section OnCommunity.

Import Scenario.

Local Abbreviation run_optimize_model :=
  (optimize_model string box_solve table_float_str nat nat_str
     (@name string) banner load_community close_fecal_uptake).

Local Abbreviation run_optimize_model_mbx :=
  (optimize_model_mbx string box_solve table_float_str nat nat_str
     (@name string) banner load_community close_fecal_uptake
     (list (string * float)) (list string)
     sample_data candidate_constraints feasible_constraints).

Local Abbreviation part2 :=
  (propagate_and_minimize string box_solve table_float_str).

Local Abbreviation both_sweeps := (sweeps string box_solve table_float_str).

Lemma community_unique_ids : unique_ids community.
Proof.
  unfold unique_ids. cbn.
  repeat (constructor; [cbn; intuition discriminate|]). constructor.
Qed.

Lemma table_float_str_line_safe x : line_safe (table_float_str x) = true.
Proof.
  unfold table_float_str.
  repeat match goal with
         | |- context [PrimFloat.eqb ?a ?b] => destruct (PrimFloat.eqb a b)
         end; reflexivity.
Qed.

Lemma close_fecal_uptake_quiet rxn_type s1 s2 :
  agree string (close_fecal_uptake rxn_type s1) (close_fecal_uptake rxn_type s2).
Proof.
  unfold close_fecal_uptake.
  apply agree_bind; [apply agree_get_model|intros m].
  apply agree_bind; [apply agree_put_model|intros _].
  apply agree_prints; apply only_prints_when, only_prints_print.
Qed.

Lemma sample_data_quiet mbx_path out s1 s2 :
  agree string (sample_data mbx_path out s1) (sample_data mbx_path out s2).
Proof.
  unfold sample_data.
  apply agree_bind;
    [apply agree_prints; apply only_prints_when, only_prints_print|intros _].
  apply agree_bind; [apply agree_write_file|intros _].
  apply agree_ret.
Qed.

Lemma candidate_constraints_quiet data :
  agree string (candidate_constraints data) (candidate_constraints data).
Proof. apply agree_ret. Qed.

Lemma feasible_constraints_quiet cs p1 p2 :
  agree string (feasible_constraints cs p1) (feasible_constraints cs p2).
Proof.
  unfold feasible_constraints.
  apply agree_bind;
    [apply agree_prints; apply only_prints_when, only_prints_print|intros _].
  apply agree_ret.
Qed.

(** Part 2 on the community: the acetate transporter is pinned to 5.0
    and restored. *)
Lemma propagate_restores_bounds_on_community :
  reactions (model (snd (part2 true transporters maxima start)))
  = reactions community.
Proof.
  refine (proj1 (propagate_restores_bounds string box_solve table_float_str
                   true transporters maxima start _ _ _)).
  vm_compute. reflexivity.
Defined.

(** A turn that raises leaves its transporter pinned: without the
    metabolite of the acetate transporter the lookup raises after the
    pin and before the restore. *)
Example propagate_abort_leaves_pin :
  let run := part2 true transporters maxima
               (mkState community_without_metabolites empty_world) in
  fst run = Raise (KeyError "acetate[u]")
  /\ get_by_id (reactions (model (snd run))) "UFEt_acetate"
     = Some (mkReaction "UFEt_acetate" 5 5).
Proof. vm_compute. split; reflexivity. Qed.

(** The propionate transporter maximizes to 0.0 and is skipped. *)
Lemma zero_flux_transporter_skipped_on_community :
  exists st',
    propagate_body string box_solve table_float_str true transporters maxima
      2 1 (1, []) start
    = (Ok (2, []), st')
    /\ same_but_console string start st'.
Proof.
  exact (proj1 (zero_flux_transporter_skipped string box_solve table_float_str
                  true transporters maxima 1 (Some 0%float) eq_refl eq_refl)
           2 (1, []) start).
Defined.

Lemma metabolite_of_prefixed_acetate :
  metabolite_of ("UFEt_" ++ "acetate") = "acetate" ++ "[u]".
Proof. exact (metabolite_of_prefixed "acetate" eq_refl). Defined.

Lemma sweeps_solve_one_model_on_community :
  solves (world (snd (both_sweeps false true start)))
  = (solves (world start)
     ++ map (solved_for string community Minimize)
          ["EX_acetate[fe]"; "EX_propionate[fe]"]
     ++ map (solved_for string community Maximize)
          ["EX_acetate[fe]"; "EX_propionate[fe]"])%list.
Proof.
  refine (proj1 (proj2 (sweeps_solve_one_model string box_solve table_float_str
                          false true start) _ _ _)).
  vm_compute. reflexivity.
Defined.

(** C5 (as stated, refuted): called with its default
    [return_outputs=False], [optimize_model] completes on the community
    model and returns [None], not the three dictionaries. *)
Lemma optimize_model_returns_none_by_default :
  result string (option Outputs)
    (run_optimize_model (InModel string nat community) "out" false false false false
       empty_world)
  = Ok None
  /\ ~ (exists maps,
          result string (option Outputs)
            (run_optimize_model (InModel string nat community) "out" false false
               false false empty_world)
          = Ok (Some maps)).
Proof.
  split; [vm_compute; reflexivity|].
  intros [maps H]. vm_compute in H. discriminate H.
Qed.

Lemma optimize_model_returns_on_community :
  exists maxd mind m',
    result string (option Outputs)
      (run_optimize_model (InModel string nat community) "out" true false true true
         empty_world)
    = Ok (Some (maxd, mind, model_rxn_bounds string m'))
    /\ PyDict.get
         (files (final_world string (option Outputs)
                   (run_optimize_model (InModel string nat community) "out" true
                      false true true empty_world)))
         ("out" ++ "/" ++ name m' ++ "_opt_flux.txt")
       = Some (flux_lines table_float_str mind).
Proof.
  assert (Hrun : exists r,
             result string (option Outputs)
               (run_optimize_model (InModel string nat community) "out" true
                  false true true empty_world) = Ok r)
    by (eexists; vm_compute; reflexivity).
  destruct Hrun as [r Hrun].
  pose proof (optimize_model_returns string box_solve table_float_str nat
                nat_str (@name string) banner load_community
                close_fecal_uptake (InModel string nat community) "out"
                true false true true empty_world r Hrun) as H.
  destruct (proj2 H eq_refl) as (fluxes & mind & m' & Hr & _ & Hfile & _).
  exists (PyDict.of_pairs (combine (UFEt_rxn_list string m') fluxes)), mind, m'.
  split; [|exact Hfile].
  now rewrite Hrun, Hr.
Defined.

Lemma invalid_input_raises_on_number :
  result string (option Outputs)
    (run_optimize_model (InOther string nat 42) "out" false false false false
       empty_world)
  = Raise (ValueError invalid_input_msg)
  /\ exists w1,
       files w1 = files empty_world /\ solves w1 = solves empty_world
       /\ run_optimize_model (InPath string nat "community.json") "out" false
            false false false empty_world
          = run_on string (Ok community)
              (optimize_model_body string box_solve table_float_str nat nat_str
                 (@name string) close_fecal_uptake
                 (InPath string nat "community.json") "out" false false false false)
              w1.
Proof.
  pose proof (invalid_input_raises string box_solve table_float_str nat nat_str
                (@name string) banner load_community close_fecal_uptake
                (list (string * float)) (list string)
                sample_data candidate_constraints feasible_constraints
                "out" "mbx.csv" false false false false false empty_world)
    as (Hother & _ & _ & _ & Hvalid & _).
  split; [exact (proj1 (Hother 42))|].
  apply Hvalid. right. exists "community.json". split; reflexivity.
Defined.

Lemma sweep_keys_in_model_order_on_community :
  PyDict.keys [("EX_acetate[fe]", Some (-1000)%float);
               ("EX_propionate[fe]", Some (-1000)%float)]
  = fecal_exchange_ids string community.
Proof.
  refine (proj1 (sweep_keys_in_model_order string box_solve table_float_str
                   false true start _ _ _ community_unique_ids _)).
  vm_compute. reflexivity.
Defined.













Lemma verbosity_flags_only_print_on_community :
  result string (option Outputs)
    (run_optimize_model (InModel string nat community) "out" true false true false
       empty_world)
  = result string (option Outputs)
      (run_optimize_model (InModel string nat community) "out" true true true true
         empty_world)
  /\ files (final_world string (option MbxOutputs)
              (run_optimize_model_mbx (InModel string nat community) "mbx.csv"
                 "out" false true true false empty_world))
     = files (final_world string (option MbxOutputs)
                (run_optimize_model_mbx (InModel string nat community) "mbx.csv"
                   "out" true false true true empty_world)).
Proof.
  pose proof (verbosity_flags_only_print string box_solve table_float_str nat
                nat_str (@name string) banner load_community close_fecal_uptake
                (list (string * float)) (list string)
                sample_data candidate_constraints feasible_constraints
                close_fecal_uptake_quiet sample_data_quiet
                candidate_constraints_quiet feasible_constraints_quiet
                (InModel string nat community) "mbx.csv" "out" true true
                false true false true false true empty_world)
    as [Hmodel Hmbx].
  split; [exact (proj1 Hmodel)|exact (proj1 (proj2 (proj2 Hmbx)))].
Defined.

(* ------------------------------------------------------------------ *)
(** *** The further properties on the community *)
(* ------------------------------------------------------------------ *)

Local Abbreviation part1 parallel :=
  (for_each transporters
     (maximize_body string box_solve table_float_str parallel 2) (0, [])).

Local Abbreviation body_on solve :=
  (optimize_model_body string solve table_float_str nat nat_str
     (@name string) close_fecal_uptake).

Local Abbreviation mbx_body :=
  (optimize_model_mbx_body string box_solve table_float_str nat nat_str
     (@name string) close_fecal_uptake (list (string * float)) (list string)
     sample_data candidate_constraints feasible_constraints).

(** Part 1 on the community solves for the acetate and then for the
    propionate transporter. *)
Lemma maximize_loop_solves_each_transporter_on_community :
  solves (world (snd (part1 true start)))
  = (solves (world start)
     ++ map (fun id => with_objective community (Some id)) transporters)%list.
Proof.
  refine (proj1 (proj2 (proj2 (proj2
            (maximize_loop_solves_each_transporter string box_solve
               table_float_str true 2 transporters start _ _ _))))).
  vm_compute. reflexivity.
Defined.

(** With the solver out of order Part 1 stops with the solver's
    exception. *)
Lemma maximize_loop_raises_only_solver_on_failing_solver :
  exists id,
    In id (UFEt_rxn_list string community)
    /\ failing_solve (with_objective community (Some id))
       = Raise (ExternalError "solver failed").
Proof.
  refine (proj2 (maximize_loop_raises_only_solver string failing_solve
                   table_float_str true 2 (0, []) start)
            (ExternalError "solver failed") _ _).
  vm_compute. reflexivity.
Defined.

Lemma maximized_flux_dict_in_model_order_on_community :
  PyDict.keys (PyDict.of_pairs (combine (UFEt_rxn_list string community) maxima))
  = UFEt_rxn_list string community.
Proof.
  refine (proj1 (proj2 (maximized_flux_dict_in_model_order string community
                          maxima community_unique_ids _))).
  reflexivity.
Defined.

Lemma model_rxn_bounds_lists_model_on_community :
  PyDict.keys (model_rxn_bounds string community) = map rid (reactions community).
Proof.
  exact (proj1 (proj2 (model_rxn_bounds_lists_model string community
                         community_unique_ids))).
Defined.

(** Part 2 on the community: every solve is a minimize. *)
Lemma propagate_solves_with_one_pin_on_community :
  exists new,
    solves (world (snd (part2 true transporters maxima start)))
    = (solves (world start) ++ new)%list
    /\ Forall (fun s => direction s = Minimize) new.
Proof.
  assert (Hrun : exists d,
             part2 true transporters maxima start
             = (Ok d, snd (part2 true transporters maxima start)))
    by (eexists; vm_compute; reflexivity).
  destruct Hrun as [d Hrun].
  destruct (propagate_solves_with_one_pin string box_solve table_float_str
              true transporters maxima start d _ Hrun) as (new & Hs & Hall).
  exists new. split; [exact Hs|].
  eapply Forall_impl; [|exact Hall].
  intros s (i & rxn_id & x & k & _ & _ & _ & _ & _ & D & _). exact D.
Defined.

(** The one entry of the minimized-flux dictionary of the community. *)
Lemma minimized_fluxes_are_pinned_minima_on_community :
  exists i rxn_id x,
    nth_error transporters i = Some rxn_id
    /\ nth_error maxima i = Some (Some x)
    /\ ne_zero (Some x) = true
    /\ PyStr.contains "IEX" "sp1_IEX_acetate[u]tr" = true
    /\ box_solve (pinned_for string community rxn_id x "sp1_IEX_acetate[u]tr")
       = Ok (Some (-1000)%float).
Proof.
  refine (minimized_fluxes_are_pinned_minima string box_solve table_float_str
            true transporters maxima start _ _ _
            "sp1_IEX_acetate[u]tr" (Some (-1000)%float) _).
  - vm_compute. reflexivity.
  - left. reflexivity.
Defined.

(** Without its metabolites the community aborts on the acetate
    transporter, which stays pinned to 5.0. *)
Lemma missing_metabolite_leaves_pin_on_community :
  exists st',
    propagate_body string box_solve table_float_str true transporters maxima
      2 0 (0, []) (mkState community_without_metabolites empty_world)
    = (Raise (KeyError (metabolite_of "UFEt_acetate")), st')
    /\ same_but_console string
         (bounds_stored string
            (mkState community_without_metabolites empty_world)
            "UFEt_acetate" 5 5) st'
    /\ get_by_id (reactions (model st')) "UFEt_acetate"
       = Some (mkReaction "UFEt_acetate" 5 5).
Proof.
  exact (missing_metabolite_leaves_pin string box_solve table_float_str true
           transporters maxima 2 0 (0, [])
           (mkState community_without_metabolites empty_world)
           "UFEt_acetate" (mkReaction "UFEt_acetate" 0 5) 5%float
           eq_refl eq_refl eq_refl eq_refl eq_refl).
Defined.

Lemma optimize_model_body_keeps_bounds_on_community :
  exists s0 s1,
    close_fecal_uptake "FEX" false start = (Ok tt, s0)
    /\ when true (add_diet_1ba string) s0 = (Ok tt, s1)
    /\ same_but_objective string (model s1)
         (model (snd (body_on box_solve (InModel string nat community) "out"
                        true false true true start))).
Proof.
  assert (Hrun : exists r,
             body_on box_solve (InModel string nat community) "out"
               true false true true start
             = (Ok r, snd (body_on box_solve (InModel string nat community) "out"
                             true false true true start)))
    by (eexists; vm_compute; reflexivity).
  destruct Hrun as [r Hrun].
  destruct (optimize_model_body_keeps_bounds string box_solve table_float_str
              nat nat_str (@name string) close_fecal_uptake
              (InModel string nat community) "out" true false true true
              start r _ Hrun)
    as (s0 & s1 & fluxes & mind & H0 & H1 & Hobj & _).
  exists s0, s1. split; [exact H0|]. split; [exact H1|exact Hobj].
Defined.

(** With the solver out of order [optimize_model] raises in Part 1 and
    leaves no output file. *)
Lemma optimize_model_body_abort_writes_nothing_on_failing_solver :
  files (world (snd (body_on failing_solve (InModel string nat community) "out"
                       false true false true start)))
  = files (world (snd (close_fecal_uptake "FEX" true start))).
Proof.
  refine (optimize_model_body_abort_writes_nothing string failing_solve
            table_float_str nat nat_str (@name string) close_fecal_uptake
            (InModel string nat community) "out" false true false true
            start _ _ _ _ _).
  - vm_compute. reflexivity.
  - vm_compute. reflexivity.
Defined.

(** The isolate has no transporter: nothing is solved. *)
Lemma optimize_model_body_without_transporters_on_isolate :
  let s0 := snd (close_fecal_uptake "FEX" true (mkState isolate empty_world)) in
  let s1 := snd (when true (add_diet_1ba string) s0) in
  exists st',
    body_on box_solve (InModel string nat isolate) "out" true true true true
      (mkState isolate empty_world)
    = (Ok (Some ([], [], model_rxn_bounds string (model s1))), st')
    /\ solves (world st') = [].
Proof.
  intros s0 s1.
  assert (H0 : close_fecal_uptake "FEX" true (mkState isolate empty_world)
               = (Ok tt, s0)) by (vm_compute; reflexivity).
  assert (H1 : when true (add_diet_1ba string) s0 = (Ok tt, s1))
    by (vm_compute; reflexivity).
  assert (H2 : UFEt_rxn_list string (model s1) = [])
    by (vm_compute; reflexivity).
  destruct (optimize_model_body_without_transporters string box_solve
              table_float_str nat nat_str (@name string) close_fecal_uptake
              (InModel string nat isolate) "out" true true true true
              (mkState isolate empty_world) s0 s1 H0 H1 H2)
    as (st' & Hrun & _ & Hs & _).
  exists st'. split; [exact Hrun|]. rewrite Hs. vm_compute. reflexivity.
Defined.

Lemma diet_1ba_twice_on_community :
  (add_diet_1ba string ;; add_diet_1ba string) start = add_diet_1ba string start.
Proof. exact (proj1 (diet_1ba_twice string start community_unique_ids)). Defined.

Lemma sweeps_raise_only_solver_on_failing_solver :
  exists id sense,
    In id (fecal_exchange_ids string community)
    /\ failing_solve (solved_for string community sense id)
       = Raise (ExternalError "solver failed").
Proof.
  refine (proj2 (sweeps_raise_only_solver string failing_solve table_float_str
                   false true start)
            (ExternalError "solver failed") _ _).
  vm_compute. reflexivity.
Defined.

Lemma sweep_values_are_solver_answers_on_community :
  In "EX_acetate[fe]" (fecal_exchange_ids string community)
  /\ box_solve (solved_for string community Minimize "EX_acetate[fe]")
     = Ok (Some (-1000)%float).
Proof.
  refine (proj1 (sweep_values_are_solver_answers string box_solve
                   table_float_str false true start _ _ _ _)
            "EX_acetate[fe]" (Some (-1000)%float) _).
  - vm_compute. reflexivity.
  - left. reflexivity.
Defined.

(** The sweeps leave the community with the propionate exchange, the
    last one swept, as its objective. *)
Lemma sweeps_leave_last_objective_on_community :
  model (snd (both_sweeps false true start))
  = with_objective community (Some "EX_propionate[fe]").
Proof.
  refine (proj1 (sweeps_leave_last_objective string box_solve table_float_str
                   false true start) _ _ _).
  vm_compute. reflexivity.
Defined.

Lemma mbx_constraints_injected_before_sweeps_on_community :
  exists s5 mbx_constr,
    constraints (model (snd (mbx_body (InModel string nat community) "mbx.csv"
                               "out" true false true true start)))
    = (constraints (model s5) ++ mbx_constr)%list
    /\ solves (world (snd (mbx_body (InModel string nat community) "mbx.csv"
                             "out" true false true true start)))
       = (solves (world s5)
          ++ map (solved_for string
                    (with_added_constraints string (model s5) mbx_constr) Minimize)
               (fecal_exchange_ids string (model s5))
          ++ map (solved_for string
                    (with_added_constraints string (model s5) mbx_constr) Maximize)
               (fecal_exchange_ids string (model s5)))%list.
Proof.
  assert (Hrun : exists r,
             mbx_body (InModel string nat community) "mbx.csv" "out"
               true false true true start
             = (Ok r, snd (mbx_body (InModel string nat community) "mbx.csv"
                             "out" true false true true start)))
    by (eexists; vm_compute; reflexivity).
  destruct Hrun as [r Hrun].
  destruct (mbx_constraints_injected_before_sweeps string box_solve
              table_float_str nat nat_str (@name string) close_fecal_uptake
              (list (string * float)) (list string)
              sample_data candidate_constraints feasible_constraints
              (InModel string nat community) "mbx.csv" "out"
              true false true true start r _ Hrun)
    as (data & s2 & s3 & cs & s4 & mbx_constr & s5 & _ & _ & _ & _ & _ & C & S).
  exists s5, mbx_constr. split; [exact C|exact S].
Defined.

Lemma mbx_writes_both_files_on_community :
  exists (s5 : State string) mins maxs,
    PyDict.get
      (files (world (snd (mbx_body (InModel string nat community) "mbx.csv"
                            "out" true false true true start))))
      ("out" ++ "/" ++ name (model s5) ++ "_min_mbx_opt_flux.txt")
    = Some (flux_lines table_float_str mins)
    /\ PyDict.get
         (files (world (snd (mbx_body (InModel string nat community) "mbx.csv"
                               "out" true false true true start))))
         ("out" ++ "/" ++ name (model s5) ++ "_max_mbx_opt_flux.txt")
       = Some (flux_lines table_float_str maxs).
Proof.
  assert (Hrun : exists r,
             mbx_body (InModel string nat community) "mbx.csv" "out"
               true false true true start
             = (Ok r, snd (mbx_body (InModel string nat community) "mbx.csv"
                             "out" true false true true start)))
    by (eexists; vm_compute; reflexivity).
  destruct Hrun as [r Hrun].
  destruct (mbx_writes_both_files string box_solve
              table_float_str nat nat_str (@name string) close_fecal_uptake
              (list (string * float)) (list string)
              sample_data candidate_constraints feasible_constraints
              (InModel string nat community) "mbx.csv" "out"
              true false true true start r _ Hrun)
    as (data & s2 & s3 & cs & s4 & mbx_constr & s5 & mins & maxs
        & _ & _ & _ & _ & _ & _ & _ & Gmin & Gmax).
  exists s5, mins, maxs. split; [exact Gmin|exact Gmax].
Defined.


(** A path the loader does not know. *)
Lemma load_failure_propagates_on_missing_file :
  result string (option Outputs)
    (run_optimize_model (InPath string nat "missing.json") "out" false false
       false false empty_world)
  = Raise (ExternalError "file not found").
Proof.
  exact (proj1 (proj1 (load_failure_propagates string box_solve table_float_str
                         nat nat_str (@name string) banner load_community
                         close_fecal_uptake
                         (list (string * float)) (list string)
                         sample_data candidate_constraints feasible_constraints
                         "missing.json" (ExternalError "file not found")
                         "out" "mbx.csv" false false false false false
                         empty_world) eq_refl)).
Defined.

End OnCommunity.
